(** * Investment-Tracker: the profit classifier and the chain healer

    A shallow embedding of the reconciliation core of the repository
    (TypeScript / React):

    - [calculateProfitStats]   src/utils/calculations.ts
    - [healTransactionChain], [handleSaveTransaction],
      [confirmDeleteTransaction], [handleImport]
                               the App component of
                               src/components/TransactionModal.tsx
    - [handleAddTransaction]   the App component of src/App.tsx
    - [parseImportCSV]         utils/csvHelper (src/unnamed/part_003)

    JavaScript's [number] is an IEEE 754 binary64 value.  The code is
    embedded once, over an interface [JSNumber] of the operations it uses,
    and the interface is instantiated twice: by Rocq's primitive binary64
    floats ([Float64], what the runtime computes) and by the rationals in
    canonical form ([Exact], arithmetic without rounding).  Theorems about
    the healer hold for every instance: they never look inside a number.

    What belongs to the runtime and not to the repository is a parameter:
    the date parser ([JSDate]), and for the import [Number], the ids drawn
    by [generateId] and the current day ([JSRuntime]).  [Array.prototype.sort]
    is the stable sort of the language. *)

From Stdlib Require Import List String Ascii ZArith Lia Bool Permutation.
From Stdlib Require Import QArith Qcanon.
From Stdlib Require Import PrimFloat.
From Stdlib Require Import DecimalString.
Import ListNotations.

Set Implicit Arguments.
Local Open Scope string_scope.
Local Open Scope list_scope.

(** ** Numbers *)

Class JSNumber : Type := {
  num : Type;
  num0 : num;                          (* the literal 0 *)
  num1 : num;                          (* the literal 1 *)
  num100 : num;                        (* the literal 100 *)
  num_add : num -> num -> num;         (* a + b *)
  num_sub : num -> num -> num;         (* a - b *)
  num_mul : num -> num -> num;         (* a * b *)
  num_div : num -> num -> num;         (* a / b *)
  num_gt : num -> num -> bool;         (* a > b *)
  num_truthy : num -> bool             (* ToBoolean(a): a is not 0, -0 or NaN *)
}.

Declare Scope num_scope.
Delimit Scope num_scope with num.
Bind Scope num_scope with num.
Notation "a + b" := (num_add a b) : num_scope.
Notation "a - b" := (num_sub a b) : num_scope.
Notation "a * b" := (num_mul a b) : num_scope.
Notation "a / b" := (num_div a b) : num_scope.
Notation "a >? b" := (num_gt a b) (at level 70, no associativity) : num_scope.

(** [a || b] on numbers: [a] when it is truthy, else [b]. *)
Definition num_or {N : JSNumber} (a b : num) : num :=
  if num_truthy a then a else b.

(** IEEE 754 binary64, the runtime's numbers.  [a > b] is [b < a]; a number
    is truthy when it is above or below zero (so 0, -0 and NaN are falsy). *)
#[export] Instance Float64 : JSNumber := {
  num := float;
  num0 := 0%float;
  num1 := 1%float;
  num100 := 100%float;
  num_add := PrimFloat.add;
  num_sub := PrimFloat.sub;
  num_mul := PrimFloat.mul;
  num_div := PrimFloat.div;
  num_gt := fun a b => PrimFloat.ltb b a;
  num_truthy := fun a => PrimFloat.ltb 0%float a || PrimFloat.ltb a 0%float
}.

(** Exact arithmetic: the rationals in lowest terms, with Leibniz equality. *)
Definition Qc_gt (a b : Qc) : bool :=
  match (a ?= b)%Qc with Gt => true | _ => false end.

#[export] Instance Exact : JSNumber := {
  num := Qc;
  num0 := Q2Qc 0;
  num1 := Q2Qc 1;
  num100 := Q2Qc 100;
  num_add := Qcplus;
  num_sub := Qcminus;
  num_mul := Qcmult;
  num_div := Qcdiv;
  num_gt := Qc_gt;
  num_truthy := fun a => negb (Qc_eq_bool a (Q2Qc 0))
}.

(** ** src/types.ts *)

(** A TypeScript string enum is, at run time, the set of its string values;
    a field typed by the enum holds a string (a cast [as Currency] checks
    nothing). *)
Module Currency.
Definition TRY : string := "TRY".
Definition USD : string := "USD".
(** [Object.values(Currency)] *)
Definition values : list string := [TRY; USD].
End Currency.

Module InvestmentType.
Definition PARTICIPATION : string := "Participation Account".
Definition SUKUK : string := "Sukuk (Lease Certificate)".
Definition GOLD : string := "Gold Account".
Definition REAL_ESTATE : string := "Real Estate Fund".
Definition values : list string := [PARTICIPATION; SUKUK; GOLD; REAL_ESTATE].
End InvestmentType.

Module TransactionType.
Definition USER_DEPOSIT : string := "USER_DEPOSIT".
Definition BANK_PROFIT : string := "BANK_PROFIT".
Definition WITHDRAWAL : string := "WITHDRAWAL".
Definition MIXED : string := "MIXED".
End TransactionType.

Module Account.
Record t {N : JSNumber} : Type := Build {
    id : string;
    bankName : string;
    currency : string;
    investmentType : string;
    startDate : string;
    maturityPeriod : num;
    riskLevel : string;
    currentBalance : num;
    initialCapital : num
  }.
Arguments t {N}.
Arguments Build {N}.

(** [{ ...a, currentBalance: b }] *)
Definition with_currentBalance {N : JSNumber} (a : t) (b : num) : t :=
    Build a.(id) a.(bankName) a.(currency) a.(investmentType) a.(startDate)
          a.(maturityPeriod) a.(riskLevel) b a.(initialCapital).
End Account.

Module Transaction.
Record t {N : JSNumber} : Type := Build {
    id : string;
    accountId : string;
    date : string;
    previousBalance : num;
    currentBalance : num;
    userDeposit : num;
    withdrawal : num;
    calculatedProfit : num;
    profitPercentage : num;
    type : string
  }.
Arguments t {N}.
Arguments Build {N}.
End Transaction.

(** ** src/utils/calculations.ts *)

Record ProfitStats {N : JSNumber} : Type := {
  profitAmount : num;
  profitPercentage : num;
  type : string
}.
Arguments ProfitStats {N}.

Section Calculations.
Context {N : JSNumber}.
Local Open Scope num_scope.

(** The divisor of the percentage, the local [base]. *)
Definition base (prevBalance userDeposit : num) : num :=
  if prevBalance >? num0 then prevBalance
  else if userDeposit >? num0 then userDeposit else num1.

Definition calculateProfitStats
    (prevBalance currBalance userDeposit withdrawal : num) : ProfitStats :=
  let diff := currBalance - prevBalance in
  let netExternalFlow := userDeposit - withdrawal in
  let profitAmount := diff - netExternalFlow in
  let base := base prevBalance userDeposit in
  let profitPercentage := (profitAmount / base) * num100 in
  let type := TransactionType.BANK_PROFIT in
  let type :=
    if withdrawal >? num0 then TransactionType.WITHDRAWAL
    else if (userDeposit >? num0) && (profitAmount >? num0)
         then TransactionType.MIXED
    else if userDeposit >? num0 then TransactionType.USER_DEPOSIT
    else type in
  {| profitAmount := profitAmount;
     profitPercentage := profitPercentage;
     type := type |}.
End Calculations.

(** ** The runtime's arrays and dates *)

(** [Array.prototype.sort(compareFn)], with [compareFn] as the sort reads
    it (a NaN result counts as +0).  The sort is stable, and for a
    comparator that is a consistent total preorder its result is determined
    by the language: the elements in ascending order, equal ones in their
    input order.  Inserting each element in front of the sorted rest of the
    array, before the first element it is in order with, computes that
    result.  For a comparator that is not consistent (here: when the runtime
    does not parse a date) the language leaves the order to the
    implementation; the insertion then gives one admissible order, which
    leaves alone an array whose neighbours are in order pair by pair.  The
    statements about date order take the dates of the account to be parsed,
    which makes the comparator consistent on its chain. *)
Section ArraySort.
Variable A : Type.
Variable compareFn : A -> A -> Z.

Fixpoint sort_insert (x : A) (l : list A) : list A :=
  match l with
  | [] => [x]
  | y :: l' => if (compareFn x y <=? 0)%Z then x :: l else y :: sort_insert x l'
  end.

Fixpoint Array_sort (l : list A) : list A :=
  match l with
  | [] => []
  | x :: l' => sort_insert x (Array_sort l')
  end.

(** Every element is in order with its successor. *)
Fixpoint ascending (l : list A) : Prop :=
  match l with
  | [] => True
  | x :: l' =>
      match l' with
      | [] => True
      | y :: _ => (compareFn x y <= 0)%Z
      end /\ ascending l'
  end.
End ArraySort.

(** [arr[arr.length - 1]], when there is one. *)
Fixpoint last_error {A : Type} (l : list A) : option A :=
  match l with
  | [] => None
  | [x] => Some x
  | _ :: l' => last_error l'
  end.

(** [new Date(s).getTime()] for a date string [s], in milliseconds: the
    runtime's date parser.  [None] is NaN, the time value of a string that
    the runtime does not parse. *)
Class JSDate : Type := {
  Date_getTime : string -> option Z
}.

(** A parser for examples: a string of the shape [YYYY-MM-DD] has the value
    of its digits read as one number, which orders such dates as their time
    values do; any other string is not a date. *)
Definition digit_of (c : ascii) : option Z :=
  let n := Z.of_nat (nat_of_ascii c) in
  if ((48 <=? n) && (n <=? 57))%Z then Some (n - 48)%Z else None.

Fixpoint digits_value (s : string) (acc : Z) : Z :=
  match s with
  | EmptyString => acc
  | String c s' =>
      match digit_of c with
      | Some d => digits_value s' (10 * acc + d)%Z
      | None => digits_value s' acc
      end
  end.

Definition is_digit (c : ascii) : bool :=
  match digit_of c with
  | Some _ => true
  | None => false
  end.

Definition is_dash (c : ascii) : bool := (nat_of_ascii c =? 45)%nat.

Definition isIsoDate (s : string) : bool :=
  match list_ascii_of_string s with
  | [y1; y2; y3; y4; s1; m1; m2; s2; d1; d2] =>
      is_digit y1 && is_digit y2 && is_digit y3 && is_digit y4 && is_dash s1
      && is_digit m1 && is_digit m2 && is_dash s2 && is_digit d1 && is_digit d2
  | _ => false
  end.

Definition IsoDate : JSDate :=
  {| Date_getTime := fun s => if isIsoDate s then Some (digits_value s 0) else None |}.

(** ** The App component of src/components/TransactionModal.tsx: healing *)

Record HealResult {N : JSNumber} : Type := {
  healedTxs : list Transaction.t;
  updatedAccounts : list Account.t
}.
Arguments HealResult {N}.

Section Healer.
Context {N : JSNumber} {D : JSDate}.

(** [new Date(date || 0).getTime()]: the empty string is falsy, and
    [new Date(0)] is the epoch. *)
Definition dateTime (date : string) : option Z :=
  if (date =? "")%string then Some 0%Z else Date_getTime date.

(** The comparator handed to [sort]: the difference of the two time values,
    NaN ([None]) when one of them is. *)
Definition dateDifference (a b : Transaction.t) : option Z :=
  match dateTime a.(Transaction.date), dateTime b.(Transaction.date) with
  | Some x, Some y => Some (x - y)%Z
  | _, _ => None
  end.

(** The comparator as [sort] reads it: if the result is NaN, +0. *)
Definition compareByDate (a b : Transaction.t) : Z :=
  match dateDifference a b with
  | Some v => v
  | None => 0%Z
  end.

(** The callback of [accTxs.map]: the transaction rebuilt on the running
    balance. *)
Definition healTx (runningBalance : num) (tx : Transaction.t) : Transaction.t :=
  let stats := calculateProfitStats runningBalance tx.(Transaction.currentBalance)
                 tx.(Transaction.userDeposit) tx.(Transaction.withdrawal) in
  Transaction.Build
    tx.(Transaction.id) tx.(Transaction.accountId) tx.(Transaction.date)
    runningBalance
    tx.(Transaction.currentBalance) tx.(Transaction.userDeposit)
    tx.(Transaction.withdrawal)
    stats.(profitAmount) stats.(profitPercentage) stats.(type).

(** [accTxs.map(tx => ...)], the closure's [runningBalance] passed along:
    after a transaction it is that transaction's [currentBalance]. *)
Fixpoint healChain (runningBalance : num) (accTxs : list Transaction.t)
  : list Transaction.t :=
  match accTxs with
  | [] => []
  | tx :: rest =>
      healTx runningBalance tx :: healChain tx.(Transaction.currentBalance) rest
  end.

Definition ofAccount (affectedAccountId : string) (t : Transaction.t) : bool :=
  (t.(Transaction.accountId) =? affectedAccountId)%string.

Definition healTransactionChain (allTransactions : list Transaction.t)
    (affectedAccountId : string) (allAccounts : list Account.t) : HealResult :=
  match find (fun a => (a.(Account.id) =? affectedAccountId)%string) allAccounts with
  | None => {| healedTxs := allTransactions; updatedAccounts := allAccounts |}
  | Some account =>
      let otherTxs :=
        filter (fun t => negb (ofAccount affectedAccountId t)) allTransactions in
      let accTxs :=
        Array_sort compareByDate
          (filter (ofAccount affectedAccountId) allTransactions) in
      let runningBalance := num_or account.(Account.initialCapital) num0 in
      let healedAccTxs := healChain runningBalance accTxs in
      let finalBalance :=
        match last_error healedAccTxs with
        | Some tx => tx.(Transaction.currentBalance)
        | None => account.(Account.initialCapital)
        end in
      let updatedAccounts :=
        map (fun a => if (a.(Account.id) =? affectedAccountId)%string
                      then Account.with_currentBalance a finalBalance
                      else a) allAccounts in
      {| healedTxs := otherTxs ++ healedAccTxs;
         updatedAccounts := updatedAccounts |}
  end.

(** An account's chain: its transactions as the healer sorts them (in date
    order, when the runtime parses their dates). *)
Definition chainOf (affectedAccountId : string) (txs : list Transaction.t)
  : list Transaction.t :=
  Array_sort compareByDate (filter (ofAccount affectedAccountId) txs).
End Healer.

(** ** The App component of src/components/TransactionModal.tsx: handlers *)

(** [new Set(ids)] with [has]: the keys that were put in. *)
Definition JSSet : Type := list string.
Definition Set_has (s : JSSet) (x : string) : bool := existsb (String.eqb x) s.

(** A non-empty string is truthy. *)
Definition str_truthy (s : string) : bool := negb (s =? "")%string.

Module App.
Section App.
Context {N : JSNumber} {D : JSDate}.

(** The component's state, the hooks that the handlers read or write. *)
Record State : Type := {
  accounts : list Account.t;
  transactions : list Transaction.t;
  editingTransaction : option Transaction.t;
  txToDelete : option Transaction.t;
  isTxModalOpen : bool
}.

Definition handleSaveTransaction (st : State) (tx : Transaction.t) : State :=
  let newTransactionsList :=
    match st.(editingTransaction) with
    | Some _ =>
        map (fun t => if (t.(Transaction.id) =? tx.(Transaction.id))%string
                      then tx else t) st.(transactions)
    | None => st.(transactions) ++ [tx]
    end in
  let r := healTransactionChain newTransactionsList tx.(Transaction.accountId)
             st.(accounts) in
  {| accounts := r.(updatedAccounts);
     transactions := r.(healedTxs);
     editingTransaction := None;
     txToDelete := st.(txToDelete);
     isTxModalOpen := false |}.

Definition confirmDeleteTransaction (st : State) : State :=
  match st.(txToDelete) with
  | None => st
  | Some txToDelete =>
      let remainingTxs :=
        filter (fun t => negb (t.(Transaction.id) =? txToDelete.(Transaction.id))%string)
               st.(transactions) in
      let r := healTransactionChain remainingTxs txToDelete.(Transaction.accountId)
                 st.(accounts) in
      {| accounts := r.(updatedAccounts);
         transactions := r.(healedTxs);
         editingTransaction := st.(editingTransaction);
         txToDelete := None;
         isTxModalOpen := st.(isTxModalOpen) |}
  end.

Definition handleImport (st : State) (newAccounts : list Account.t)
    (newTransactions : list Transaction.t) : State :=
  if (List.length newAccounts =? 0)%nat then st
  else
    let accounts' :=
      let prev := st.(accounts) in
      let existingIds : JSSet := map Account.id prev in
      let uniqueNew :=
        filter (fun a => str_truthy a.(Account.id)
                         && negb (Set_has existingIds a.(Account.id))) newAccounts in
      prev ++ uniqueNew in
    let transactions' :=
      let prev := st.(transactions) in
      let existingIds : JSSet := map Transaction.id prev in
      let uniqueNew :=
        filter (fun t => str_truthy t.(Transaction.id)
                         && negb (Set_has existingIds t.(Transaction.id)))
               newTransactions in
      prev ++ uniqueNew in
    {| accounts := accounts';
       transactions := transactions';
       editingTransaction := st.(editingTransaction);
       txToDelete := st.(txToDelete);
       isTxModalOpen := st.(isTxModalOpen) |}.
End App.
End App.

(** ** src/App.tsx and the first TransactionModal of
       src/components/TransactionModal.tsx *)

Module AppTsx.
Section AppTsx.
Context {N : JSNumber}.

Record State : Type := {
  accounts : list Account.t;
  transactions : list Transaction.t;
  isTxModalOpen : bool
}.

Definition handleAddTransaction (st : State) (newTx : Transaction.t) : State :=
  {| transactions := st.(transactions) ++ [newTx];
     accounts :=
       map (fun acc =>
              if (acc.(Account.id) =? newTx.(Transaction.accountId))%string
              then Account.with_currentBalance acc newTx.(Transaction.currentBalance)
              else acc) st.(accounts);
     isTxModalOpen := false |}.

(** [handleSave] of the modal that feeds [handleAddTransaction]: the form's
    fields and the id [crypto.randomUUID()] returned. *)
Definition handleSave (account : Account.t) (newBalance userDeposit withdrawal : num)
    (date : string) (randomUUID : string) : Transaction.t :=
  let stats := calculateProfitStats account.(Account.currentBalance) newBalance
                 userDeposit withdrawal in
  Transaction.Build randomUUID account.(Account.id) date
    account.(Account.currentBalance) newBalance userDeposit withdrawal
    stats.(profitAmount) stats.(profitPercentage) stats.(type).
End AppTsx.
End AppTsx.

(** ** utils/csvHelper (src/unnamed/part_003): [parseImportCSV] *)

(** Strings of the model are sequences of code units below 256 (the Latin-1
    range of a JavaScript string). *)
Module Str.
Definition code (c : ascii) : nat := nat_of_ascii c.
Definition LF : ascii := ascii_of_nat 10.
Definition CR : ascii := ascii_of_nat 13.
Definition comma : ascii := ascii_of_nat 44.
Definition quote : ascii := ascii_of_nat 34.

Definition rev (s : string) : string :=
  string_of_list_ascii (List.rev (list_ascii_of_string s)).

(** White space and line terminators, as [trim] reads them. *)
Definition is_space (c : ascii) : bool :=
  let n := code c in
  ((9 <=? n) && (n <=? 13) || (n =? 32) || (n =? 160))%nat.

Fixpoint trimStart (s : string) : string :=
  match s with
  | EmptyString => EmptyString
  | String c s' => if is_space c then trimStart s' else s
  end.

Definition trim (s : string) : string := rev (trimStart (rev (trimStart s))).

Definition upper (c : ascii) : ascii :=
  let n := code c in
  if ((97 <=? n) && (n <=? 122) || (224 <=? n) && (n <=? 254) && negb (n =? 247))%nat
  then ascii_of_nat (n - 32) else c.

Definition lower (c : ascii) : ascii :=
  let n := code c in
  if ((65 <=? n) && (n <=? 90) || (192 <=? n) && (n <=? 222) && negb (n =? 215))%nat
  then ascii_of_nat (n + 32) else c.

(** [s.toUpperCase()].  The sharp s (223) becomes "SS"; the capitals of the
    micro sign (181) and of y with diaeresis (255) lie outside the range and
    the two are kept: neither is a letter of the section markers. *)
Fixpoint toUpperCase (s : string) : string :=
  match s with
  | EmptyString => EmptyString
  | String c s' =>
      if (code c =? 223)%nat then String "S" (String "S" (toUpperCase s'))
      else String (upper c) (toUpperCase s')
  end.

Fixpoint toLowerCase (s : string) : string :=
  match s with
  | EmptyString => EmptyString
  | String c s' => String (lower c) (toLowerCase s')
  end.

Definition startsWith (s p : string) : bool := String.prefix p s.

Fixpoint includes (s p : string) : bool :=
  String.prefix p s
  || match s with
     | EmptyString => false
     | String _ s' => includes s' p
     end.

(** [s.replace(/\r\n/g, '\n')] *)
Fixpoint replaceCRLF (s : string) : string :=
  match s with
  | EmptyString => EmptyString
  | String c rest =>
      match rest with
      | String c' s' =>
          if (Ascii.eqb c CR && Ascii.eqb c' LF)%bool
          then String LF (replaceCRLF s')
          else String c (replaceCRLF rest)
      | EmptyString => String c EmptyString
      end
  end.

(** The first piece gets one more character in front. *)
Definition cons_head (c : ascii) (pieces : list string) : list string :=
  match pieces with
  | [] => [String c EmptyString]
  | h :: t => String c h :: t
  end.

(** [s.split(sep)] for a one-character separator. *)
Fixpoint split (sep : ascii) (s : string) : list string :=
  match s with
  | EmptyString => [EmptyString]
  | String c s' =>
      if Ascii.eqb c sep then EmptyString :: split sep s'
      else cons_head c (split sep s')
  end.

Fixpoint count_quotes (s : string) : nat :=
  match s with
  | EmptyString => 0
  | String c s' => (if Ascii.eqb c quote then 1 else 0) + count_quotes s'
  end.

(** [line.split(re)] for the regular expression of the source: a comma
    followed, up to the end of the line, by an even number of quote
    characters (the lookahead reads pairs of quotes, each after a run of
    other characters).  So the line is split at the commas outside quotes. *)
Fixpoint splitFields (line : string) : list string :=
  match line with
  | EmptyString => [EmptyString]
  | String c s' =>
      if (Ascii.eqb c comma && Nat.even (count_quotes s'))%bool
      then EmptyString :: splitFields s'
      else cons_head c (splitFields s')
  end.

Definition dropLeadingQuote (s : string) : string :=
  match s with
  | String c s' => if Ascii.eqb c quote then s' else s
  | EmptyString => EmptyString
  end.

(** [p.replace(re, '')] for the global pattern of the source, a quote at
    the start or a quote at the end: the quote at the start goes, and the
    quote at the end of what is left. *)
Definition stripQuotes (s : string) : string :=
  rev (dropLeadingQuote (rev (dropLeadingQuote s))).
End Str.

(** What the parser asks of the runtime: [Number(s)], the ids that
    [generateId()] returns (the k-th call's), and the day
    [new Date().toISOString().split('T')[0]]. *)
Class JSRuntime {N : JSNumber} : Type := {
  Number : string -> num;
  generateId : nat -> string;
  today : string
}.

Inductive CsvSection : Type := NONE | ACCOUNTS | TRANSACTIONS.

Section CsvHelper.
Context {N : JSNumber} {R : JSRuntime}.

(** The variables the [forEach] callback closes over, and the number of ids
    drawn so far. *)
Record ParseState : Type := {
  currentSection : CsvSection;
  accounts : list Account.t;
  transactions : list Transaction.t;
  idsDrawn : nat
}.

(** [cleanParts[i] || dflt]; a missing element is [undefined], falsy. *)
Definition partOr (cleanParts : list string) (i : nat) (dflt : string) : string :=
  match nth_error cleanParts i with
  | Some s => if str_truthy s then s else dflt
  | None => dflt
  end.

(** [Number(cleanParts[i]) || dflt]; [Number(undefined)] is NaN, falsy. *)
Definition numberOr (cleanParts : list string) (i : nat) (dflt : num) : num :=
  match nth_error cleanParts i with
  | Some s => num_or (Number s) dflt
  | None => dflt
  end.

(** [cleanParts[0] || generateId()]: an id is drawn only for an empty field. *)
Definition idOr (cleanParts : list string) (st : ParseState) : string * nat :=
  match nth_error cleanParts 0 with
  | Some s => if str_truthy s then (s, st.(idsDrawn))
              else (generateId st.(idsDrawn), S st.(idsDrawn))
  | None => (generateId st.(idsDrawn), S st.(idsDrawn))
  end.

Definition parseAccount (cleanParts : list string) (id : string) : Account.t :=
  let currency := nth 2 cleanParts EmptyString in
  let currency :=
    if existsb (String.eqb currency) Currency.values then currency
    else Currency.TRY in
  Account.Build id
    (partOr cleanParts 1 "Unknown Bank")
    currency
    (partOr cleanParts 3 InvestmentType.PARTICIPATION)
    (partOr cleanParts 4 today)
    (numberOr cleanParts 5 num0)
    (partOr cleanParts 6 "Low")
    (numberOr cleanParts 7 num0)
    (numberOr cleanParts 8 (numberOr cleanParts 7 num0)).

Definition parseTransaction (cleanParts : list string) (id : string) : Transaction.t :=
  Transaction.Build id
    (nth 1 cleanParts EmptyString)
    (partOr cleanParts 2 today)
    (numberOr cleanParts 3 num0)
    (numberOr cleanParts 4 num0)
    (numberOr cleanParts 5 num0)
    (numberOr cleanParts 6 num0)
    (numberOr cleanParts 7 num0)
    (numberOr cleanParts 8 num0)
    (partOr cleanParts 9 TransactionType.BANK_PROFIT).

Definition cleanPartsOf (line : string) : list string :=
  map (fun p => Str.stripQuotes (Str.trim p)) (Str.splitFields line).

(** The callback of [lines.forEach]. *)
Definition parseLine (st : ParseState) (line : string) : ParseState :=
  let upperLine := Str.toUpperCase line in
  if Str.includes upperLine "---ACCOUNTS---" then
    {| currentSection := ACCOUNTS; accounts := st.(accounts);
       transactions := st.(transactions); idsDrawn := st.(idsDrawn) |}
  else if Str.includes upperLine "---TRANSACTIONS---" then
    {| currentSection := TRANSACTIONS; accounts := st.(accounts);
       transactions := st.(transactions); idsDrawn := st.(idsDrawn) |}
  else if Str.startsWith (Str.toLowerCase line) "id," then st
  else
    let cleanParts := cleanPartsOf line in
    match st.(currentSection) with
    | ACCOUNTS =>
        if (8 <=? List.length cleanParts)%nat then
          let '(id, drawn) := idOr cleanParts st in
          {| currentSection := st.(currentSection);
             accounts := st.(accounts) ++ [parseAccount cleanParts id];
             transactions := st.(transactions); idsDrawn := drawn |}
        else st
    | TRANSACTIONS =>
        if (9 <=? List.length cleanParts)%nat then
          let '(id, drawn) := idOr cleanParts st in
          {| currentSection := st.(currentSection);
             accounts := st.(accounts);
             transactions := st.(transactions) ++ [parseTransaction cleanParts id];
             idsDrawn := drawn |}
        else st
    | NONE => st
    end.

(** The non-empty trimmed lines of the document.  The first [replace], of
    a leading byte order mark (U+FEFF), changes no document of the model:
    the mark is outside its range. *)
Definition linesOf (content : string) : list string :=
  let normalizedContent := Str.replaceCRLF content in
  filter (fun l => (0 <? String.length l)%nat)
         (map Str.trim (Str.split Str.LF normalizedContent)).

Definition parseImportCSV (content : string)
  : list Account.t * list Transaction.t :=
  let st := fold_left parseLine (linesOf content)
              {| currentSection := NONE; accounts := []; transactions := [];
                 idsDrawn := 0 |} in
  (st.(accounts), st.(transactions)).
End CsvHelper.

(** ** Vocabulary of the statements *)

(** The date [d] is not later than the date [e]: the runtime parses both,
    and the time value of [d] is at most that of [e]. *)
Definition notLater {D : JSDate} (d e : string) : Prop :=
  exists x y : Z, dateTime d = Some x /\ dateTime e = Some y /\ (x <= y)%Z.

(** The date [d] is earlier than the date [e]: the runtime parses both, and
    the time value of [d] is the smaller. *)
Definition earlier {D : JSDate} (d e : string) : Prop :=
  exists x y : Z, dateTime d = Some x /\ dateTime e = Some y /\ (x < y)%Z.

(** The transactions are in date order: none is later than the next one. *)
Fixpoint inDateOrder {N : JSNumber} {D : JSDate} (l : list Transaction.t) : Prop :=
  match l with
  | [] => True
  | a :: l' =>
      match l' with
      | [] => True
      | b :: _ => notLater a.(Transaction.date) b.(Transaction.date)
      end /\ inDateOrder l'
  end.

(** The runtime parses the date of every transaction of the account. *)
Definition datesParse {N : JSNumber} {D : JSDate} (accountId : string)
    (txs : list Transaction.t) : Prop :=
  forall t, In t txs -> t.(Transaction.accountId) = accountId ->
    dateTime t.(Transaction.date) <> None.

(** [b] is the balance of a latest transaction of the account in [txs] (a
    transaction of the account that none of the account is later than), or
    [capital] when the account has no transaction. *)
Definition latestBalance {N : JSNumber} {D : JSDate} (accountId : string)
    (txs : list Transaction.t) (capital b : num) : Prop :=
  (exists t, In t txs /\ t.(Transaction.accountId) = accountId
     /\ (forall u, In u txs -> u.(Transaction.accountId) = accountId ->
          notLater u.(Transaction.date) t.(Transaction.date))
     /\ b = t.(Transaction.currentBalance))
  \/ ((forall u, In u txs -> u.(Transaction.accountId) <> accountId)
      /\ b = capital).

(** The fields of a transaction that the caller supplies; the other four are
    derived by the healer. *)
Definition inputsOf {N : JSNumber} (t : Transaction.t)
  : string * string * string * num * num * num :=
  (t.(Transaction.id), t.(Transaction.accountId), t.(Transaction.date),
   t.(Transaction.currentBalance), t.(Transaction.userDeposit),
   t.(Transaction.withdrawal)).

(** [a'] is [a] but for its [currentBalance]. *)
Definition sameButBalance {N : JSNumber} (a a' : Account.t) : Prop :=
  a' = Account.with_currentBalance a a'.(Account.currentBalance).

(** What a heal of [accountId] may change in an account: the balance, when
    the account has that id. *)
Definition accountFrame {N : JSNumber} (accountId : string) (a a' : Account.t) : Prop :=
  if (a.(Account.id) =? accountId)%string then sameButBalance a a' else a' = a.

(** The classifier's profit on the fields of a transaction itself. *)
Definition profitOfFields {N : JSNumber} (t : Transaction.t) : num :=
  ((t.(Transaction.currentBalance) - t.(Transaction.previousBalance))
   - (t.(Transaction.userDeposit) - t.(Transaction.withdrawal)))%num.

(** The balance of an account after a heal: that of the last transaction of
    its chain, or the initial capital when the chain is empty. *)
Definition chainBalance {N : JSNumber} {D : JSDate} (accountId : string)
    (txs : list Transaction.t) (initialCapital : num) : num :=
  match last_error (chainOf accountId txs) with
  | Some tx => tx.(Transaction.currentBalance)
  | None => initialCapital
  end.

(** The callback of [allAccounts.map] in [healTransactionChain]. *)
Definition setBalance {N : JSNumber} (accountId : string) (b : num) (a : Account.t)
  : Account.t :=
  if (a.(Account.id) =? accountId)%string then Account.with_currentBalance a b else a.

(** ** A ledger for the examples: two accounts, the first with a February
    and a January statement recorded in that order. *)
Module Ledger.
Definition kuveyt : Account.t (N := Float64) :=
  Account.Build (N := Float64) "1" "Kuveyt Turk" Currency.TRY InvestmentType.PARTICIPATION
    "2024-01-01" 12%float "Low" 1250%float 1000%float.
Definition albaraka : Account.t (N := Float64) :=
  Account.Build (N := Float64) "2" "Albaraka" Currency.USD InvestmentType.SUKUK
    "2024-02-15" 6%float "Medium" 12500%float 10000%float.
Definition february : Transaction.t (N := Float64) :=
  Transaction.Build (N := Float64) "t-feb" "1" "2024-02-01" 1000%float 1250%float 100%float
    0%float 150%float 15%float TransactionType.MIXED.
Definition january : Transaction.t (N := Float64) :=
  Transaction.Build (N := Float64) "t-jan" "1" "2024-01-01" 1250%float 1100%float 0%float
    0%float (-150)%float (-12)%float TransactionType.BANK_PROFIT.
Definition other : Transaction.t (N := Float64) :=
  Transaction.Build (N := Float64) "t-usd" "2" "2024-03-01" 10000%float 12500%float 0%float
    0%float 2500%float 25%float TransactionType.BANK_PROFIT.
Definition accounts : list (Account.t (N := Float64)) := [kuveyt; albaraka].
Definition transactions : list (Transaction.t (N := Float64)) :=
  [february; other; january].
End Ledger.

(** The first account with a third statement between the two, imported with
    a date that the runtime does not parse. *)
Module Unparsed.
Definition undated : Transaction.t (N := Float64) :=
  Transaction.Build (N := Float64) "t-bad" "1" "not-a-date" 1250%float 1300%float
    0%float 0%float 50%float 4%float TransactionType.BANK_PROFIT.
Definition transactions : list (Transaction.t (N := Float64)) :=
  [Ledger.february; undated; Ledger.january].
End Unparsed.

(** An account whose initial capital is NaN, with one statement. *)
Module NoCapital.
Definition account : Account.t (N := Float64) :=
  Account.Build (N := Float64) "9" "Emlak Katilim" Currency.TRY InvestmentType.GOLD
    "2024-01-01" 12%float "Low" 700%float PrimFloat.nan.
Definition statement : Transaction.t (N := Float64) :=
  Transaction.Build (N := Float64) "t-9" "9" "2024-02-01" 0%float 700%float 0%float
    0%float 700%float 70000%float TransactionType.BANK_PROFIT.
End NoCapital.

(** The state of src/App.tsx with the February statement recorded, and the
    state of the healing App with the same records. *)
Module Scenario.
Definition legacy : AppTsx.State (N := Float64) :=
  {| AppTsx.accounts := Ledger.accounts;
     AppTsx.transactions := [Ledger.february; Ledger.other];
     AppTsx.isTxModalOpen := true |}.
Definition healing : App.State (N := Float64) :=
  {| App.accounts := Ledger.accounts;
     App.transactions := [Ledger.february; Ledger.other];
     App.editingTransaction := None;
     App.txToDelete := Some Ledger.february;
     App.isTxModalOpen := true |}.
End Scenario.

(** An import document: an accounts section with one row whose currency and
    investment type are not of the enumerations, one row of seven fields,
    and a transactions section with a row of eight fields. *)
Module CsvSample.
Definition nl : string := String Str.LF EmptyString.
Definition document : string :=
  "---ACCOUNTS---" ++ nl ++
  "ID,Bank Name,Currency,Type,Start Date,Maturity,Risk,Current Balance,Initial Capital"
  ++ nl ++
  "a1,Ziraat Katilim,EUR,Bitcoin,2024-01-01,12,Low,1000,1000" ++ nl ++
  "a2,Vakif Katilim,USD,Gold Account,2024-01-01,12,Low" ++ nl ++
  "---TRANSACTIONS---" ++ nl ++
  "ID,Account ID,Date,Prev Balance,Curr Balance,User Deposit,Withdrawal,Profit,Profit %,Type"
  ++ nl ++
  "t1,a1,2024-02-01,1000,1100,0,0,100" ++ nl.
End CsvSample.

(** A runtime for the examples, on exact numbers: [Number] reads the decimal
    digits of its argument, the ids drawn are numbered. *)
Definition SampleRuntime : JSRuntime (N := Exact) :=
  {| Number := fun s => Q2Qc (inject_Z (digits_value s 0));
     generateId := fun k => String (ascii_of_nat (48 + k)) "-generated";
     today := "2024-06-01" |}.
(** ** Further handlers of the App component of
       src/components/TransactionModal.tsx *)

Module AppAccount.
Section AppAccount.
Context {N : JSNumber}.

Definition handleSaveAccount (st : App.State) (newAcc : Account.t) : App.State :=
  {| App.accounts := st.(App.accounts) ++ [newAcc];
     App.transactions := st.(App.transactions);
     App.editingTransaction := st.(App.editingTransaction);
     App.txToDelete := st.(App.txToDelete);
     App.isTxModalOpen := st.(App.isTxModalOpen) |}.

(** [confirmDeleteAccount]; the hook [accountToDelete], which is not a field
    of [App.State], is passed in and its new value returned. *)
Definition confirmDeleteAccount (st : App.State) (accountToDelete : option Account.t)
  : App.State * option Account.t :=
  match accountToDelete with
  | Some account =>
      ({| App.accounts :=
            filter (fun acc => negb (acc.(Account.id) =? account.(Account.id))%string)
                   st.(App.accounts);
          App.transactions :=
            filter (fun tx => negb (tx.(Transaction.accountId)
                                    =? account.(Account.id))%string)
                   st.(App.transactions);
          App.editingTransaction := st.(App.editingTransaction);
          App.txToDelete := st.(App.txToDelete);
          App.isTxModalOpen := st.(App.isTxModalOpen) |}, None)
  | None => (st, None)
  end.

(** The profit of an account card: the [reduce] over the account's
    transactions, from the left, each [calculatedProfit || 0]. *)
Definition accProfit (acc : Account.t) (transactions : list Transaction.t) : num :=
  fold_left (fun s t => (s + num_or t.(Transaction.calculatedProfit) num0)%num)
    (filter (fun t => (t.(Transaction.accountId) =? acc.(Account.id))%string)
            transactions)
    num0.

(** The return on investment of the card. *)
Definition roi (acc : Account.t) (transactions : list Transaction.t) : num :=
  if (acc.(Account.initialCapital) >? num0)%num
  then ((accProfit acc transactions / acc.(Account.initialCapital)) * num100)%num
  else num0.
End AppAccount.
End AppAccount.

(** ** utils/csvHelper (src/unnamed/part_003): [exportToCSV] *)

(** A number in a template literal: the runtime's [String(x)]. *)
Class JSToString {N : JSNumber} : Type := {
  toString : num -> string
}.

Section CsvExport.
Context {N : JSNumber} {S : JSToString}.

Definition quoteStr : string := String Str.quote EmptyString.
Definition commaStr : string := String Str.comma EmptyString.
Definition newline : string := String Str.LF EmptyString.

(** The line of an account, without its newline. *)
Definition accountRow (acc : Account.t) : string :=
  (acc.(Account.id) ++ commaStr
  ++ quoteStr ++ acc.(Account.bankName) ++ quoteStr ++ commaStr
  ++ acc.(Account.currency) ++ commaStr
  ++ quoteStr ++ acc.(Account.investmentType) ++ quoteStr ++ commaStr
  ++ acc.(Account.startDate) ++ commaStr
  ++ toString acc.(Account.maturityPeriod) ++ commaStr
  ++ acc.(Account.riskLevel) ++ commaStr
  ++ toString acc.(Account.currentBalance) ++ commaStr
  ++ toString acc.(Account.initialCapital))%string.

(** The line of a transaction, without its newline. *)
Definition transactionRow (tx : Transaction.t) : string :=
  (tx.(Transaction.id) ++ commaStr
  ++ tx.(Transaction.accountId) ++ commaStr
  ++ tx.(Transaction.date) ++ commaStr
  ++ toString tx.(Transaction.previousBalance) ++ commaStr
  ++ toString tx.(Transaction.currentBalance) ++ commaStr
  ++ toString tx.(Transaction.userDeposit) ++ commaStr
  ++ toString tx.(Transaction.withdrawal) ++ commaStr
  ++ toString tx.(Transaction.calculatedProfit) ++ commaStr
  ++ toString tx.(Transaction.profitPercentage) ++ commaStr
  ++ tx.(Transaction.type))%string.

Definition accountsHeader : string :=
  "ID,Bank Name,Currency,Type,Start Date,Maturity,Risk,Current Balance,Initial Capital".
Definition transactionsHeader : string :=
  "ID,Account ID,Date,Prev Balance,Curr Balance,User Deposit,Withdrawal,Profit,Profit %,Type".

(** [csvContent] += one line per record, by [forEach]. *)
Definition appendRows {A : Type} (row : A -> string) (records : list A)
    (csvContent : string) : string :=
  fold_left (fun content r => (content ++ row r ++ newline)%string) records csvContent.

(** The text [exportToCSV] builds, [csvContent].  (The function then hands
    it, after a byte order mark, to the browser as a download.) *)
Definition csvContent (accounts : list Account.t) (transactions : list Transaction.t)
  : string :=
  let csvContent := ("---ACCOUNTS---" ++ newline)%string in
  let csvContent := (csvContent ++ accountsHeader ++ newline)%string in
  let csvContent := appendRows accountRow accounts csvContent in
  let csvContent := (csvContent ++ newline ++ "---TRANSACTIONS---" ++ newline)%string in
  let csvContent := (csvContent ++ transactionsHeader ++ newline)%string in
  appendRows transactionRow transactions csvContent.
End CsvExport.

(** ** src/components/ImportWizard.tsx *)

Module ImportWizard.
Section ImportWizard.
Context {N : JSNumber} {R : JSRuntime}.

Record State : Type := {
  previewData : option (list Account.t * list Transaction.t);
  error : option string;
  debugInfo : option string
}.

(** [reader.onload] of [handleFileChange], on the text of the file
    ([handleFileChange] has cleared [error] and [debugInfo] before). *)
Definition onload (st : State) (content : string) : State :=
  let st := {| previewData := st.(previewData); error := None; debugInfo := None |} in
  if negb (str_truthy content) then
    {| previewData := st.(previewData);
       error := Some "The file is empty.";
       debugInfo := st.(debugInfo) |}
  else
    let data := parseImportCSV content in
    if ((List.length (fst data) =? 0) && (List.length (snd data) =? 0))%nat then
      {| previewData := None;
         error := Some "Could not find any valid investment data in the file.";
         debugInfo :=
           Some "Found 0 accounts and 0 transactions. Ensure your file has the correct headers like ---ACCOUNTS---." |}
    else
      {| previewData := Some data; error := None; debugInfo := None |}.

(** [handleConfirm], with [onImport] the App's [handleImport]. *)
Definition handleConfirm (st : State) (app : App.State) : App.State :=
  match st.(previewData) with
  | Some data => App.handleImport app (fst data) (snd data)
  | None => app
  end.

Definition initial : State :=
  {| previewData := None; error := None; debugInfo := None |}.
End ImportWizard.
End ImportWizard.

(** ** Vocabulary of the further statements *)

(** A ledger is consistent when, for every id that an account has, the chain
    of that id is what healing it gives (each previous balance, profit,
    percentage and type is the recomputed one) and every account of that id
    has the balance of the chain; the initial capital is that of the first
    account with the id, which is the one the healer reads. *)
Definition consistent {N : JSNumber} {D : JSDate} (accounts : list Account.t)
    (transactions : list Transaction.t) : Prop :=
  forall (accountId : string) (account : Account.t),
    find (fun a => (a.(Account.id) =? accountId)%string) accounts = Some account ->
    chainOf accountId transactions
    = healChain (num_or account.(Account.initialCapital) num0)
                (chainOf accountId transactions)
    /\ forall a, In a accounts -> a.(Account.id) = accountId ->
         a.(Account.currentBalance)
         = chainBalance accountId transactions account.(Account.initialCapital).

(** A ledger is linked by date when, for every id that an account has, the
    transactions of that id stand in the ledger in date order, each of them
    is what the replay from [initialCapital || 0] gives (previous balance,
    profit, percentage and type), and every account of that id has the
    balance of the last of them, or its initial capital when there is none;
    the initial capital is that of the first account with the id. *)
Definition linkedByDate {N : JSNumber} {D : JSDate} (accounts : list Account.t)
    (transactions : list Transaction.t) : Prop :=
  forall (accountId : string) (account : Account.t),
    find (fun a => (a.(Account.id) =? accountId)%string) accounts = Some account ->
    inDateOrder (filter (ofAccount accountId) transactions)
    /\ filter (ofAccount accountId) transactions
       = healChain (num_or account.(Account.initialCapital) num0)
                   (filter (ofAccount accountId) transactions)
    /\ forall a, In a accounts -> a.(Account.id) = accountId ->
         a.(Account.currentBalance)
         = match last_error (filter (ofAccount accountId) transactions) with
           | Some t => t.(Transaction.currentBalance)
           | None => account.(Account.initialCapital)
           end.

(** ** The second AccountModal of src/components/TransactionModal.tsx *)

Module AccountModal.
Section AccountModal.
Context {N : JSNumber}.

(** The form's hooks. *)
Record Form : Type := {
  bankName : string;
  currency : string;
  investmentType : string;
  startDate : string;
  maturityPeriod : num;
  initialCapital : num;
  riskLevel : string
}.

(** [handleSave]: the account handed to [onSave], or nothing after the alert
    for a blank bank name; [id] is the value [generateId()] returns. *)
Definition handleSave (form : Form) (id : string) : option Account.t :=
  if negb (str_truthy (Str.trim form.(bankName))) then None
  else Some (Account.Build id form.(bankName) form.(currency)
               form.(investmentType) form.(startDate) form.(maturityPeriod)
               form.(riskLevel) form.(initialCapital) form.(initialCapital)).
End AccountModal.
End AccountModal.

(** A ledger that starts with one account and no transaction, a first
    statement for it, and the ledger after that statement is saved. *)
Module Opening.
Definition vakif : Account.t (N := Float64) :=
  Account.Build (N := Float64) "3" "Vakif Katilim" Currency.TRY InvestmentType.GOLD
    "2024-03-01" 6%float "Low" 500%float 500%float.
Definition opened : App.State (N := Float64) :=
  {| App.accounts := [vakif];
     App.transactions := [];
     App.editingTransaction := None;
     App.txToDelete := None;
     App.isTxModalOpen := true |}.
Definition statement : Transaction.t (N := Float64) :=
  Transaction.Build (N := Float64) "t-1" "3" "2024-04-01" 500%float 620%float
    100%float 0%float 20%float 4%float TransactionType.MIXED.
Definition recorded : App.State (N := Float64) :=
  {| App.accounts := [Account.with_currentBalance vakif 620%float];
     App.transactions := [statement];
     App.editingTransaction := None;
     App.txToDelete := Some statement;
     App.isTxModalOpen := false |}.
End Opening.

(** The total of a field over transactions, in exact arithmetic. *)
Definition total (field : Transaction.t (N := Exact) -> Qc)
    (txs : list (Transaction.t (N := Exact))) : Qc :=
  fold_right (fun t s => (field t + s)%Qc) (Q2Qc 0) txs.

(** The balance a chain ends on, when it starts on [r]. *)
Definition endBalance (r : Qc) (l : list (Transaction.t (N := Exact))) : Qc :=
  match last_error l with
  | Some t => t.(Transaction.currentBalance)
  | None => r
  end.

(** The first account of the example ledger and its two statements, in exact
    numbers. *)
Module ExactLedger.
Definition kuveyt : Account.t (N := Exact) :=
  Account.Build (N := Exact) "1" "Kuveyt Turk" Currency.TRY
    InvestmentType.PARTICIPATION "2024-01-01" (Q2Qc 12) "Low" (Q2Qc 1250)
    (Q2Qc 1000).
Definition february : Transaction.t (N := Exact) :=
  Transaction.Build (N := Exact) "t-feb" "1" "2024-02-01" (Q2Qc 1000) (Q2Qc 1250)
    (Q2Qc 100) (Q2Qc 0) (Q2Qc 150) (Q2Qc 15) TransactionType.MIXED.
Definition january : Transaction.t (N := Exact) :=
  Transaction.Build (N := Exact) "t-jan" "1" "2024-01-01" (Q2Qc 1250) (Q2Qc 1100)
    (Q2Qc 0) (Q2Qc 0) (Q2Qc (-150)) (Q2Qc (-12)) TransactionType.BANK_PROFIT.
End ExactLedger.

(** What holds of every account that comes out of the import parser. *)
Definition importedAccountOk {N : JSNumber} (a : Account.t) : Prop :=
  In a.(Account.currency) Currency.values
  /\ a.(Account.bankName) <> "" /\ a.(Account.investmentType) <> ""
  /\ a.(Account.riskLevel) <> "".

(** ** Records that an export writes so that the import reads them back *)

(** No character of [s] is one of [cs]. *)
Fixpoint noChar (cs : list ascii) (s : string) : bool :=
  match s with
  | EmptyString => true
  | String c s' => negb (existsb (Ascii.eqb c) cs) && noChar cs s'
  end.

(** The first character is there and is not white space. *)
Definition startsOk (s : string) : bool :=
  match s with
  | String c _ => negb (Str.is_space c)
  | EmptyString => false
  end.

(** A field written bare: not empty, no white space at its ends, and free of
    line breaks, commas and quotes. *)
Definition plain (s : string) : bool :=
  startsOk s && startsOk (Str.rev s)
  && noChar [Str.LF; Str.CR; Str.comma; Str.quote] s.

(** A field written between quotes: not empty, and free of line breaks and
    quotes. *)
Definition quotable (s : string) : bool :=
  str_truthy s && noChar [Str.LF; Str.CR; Str.quote] s.

(** The line is read as a data row: it holds no section marker and does not
    start like a header. *)
Definition readAsData (line : string) : bool :=
  negb (Str.includes (Str.toUpperCase line) "---ACCOUNTS---")
  && negb (Str.includes (Str.toUpperCase line) "---TRANSACTIONS---")
  && negb (Str.startsWith (Str.toLowerCase line) "id,").

Section Exportable.
Context {N : JSNumber} {R : JSRuntime} {S : JSToString}.

(** The number is written as a bare field and [Number] reads it back. *)
Definition printed (x : num) : Prop :=
  plain (toString x) = true /\ Number (toString x) = x.

(** And [x || 0] is [x]: the number is 0 or truthy. *)
Definition printedOrZero (x : num) : Prop :=
  printed x /\ num_or x num0 = x.

(** An account whose row the import reads field by field. *)
Definition writableAccount (a : Account.t) : Prop :=
  plain a.(Account.id) = true
  /\ quotable a.(Account.bankName) = true
  /\ In a.(Account.currency) Currency.values
  /\ quotable a.(Account.investmentType) = true
  /\ plain a.(Account.startDate) = true
  /\ printedOrZero a.(Account.maturityPeriod)
  /\ plain a.(Account.riskLevel) = true
  /\ printedOrZero a.(Account.currentBalance)
  /\ printed a.(Account.initialCapital)
  /\ readAsData (accountRow a) = true.

(** The initial capital is read back as [Number(capital) ||
    Number(balance) || 0]: the account comes back with [capital || balance]. *)
Definition restoredAccount (a : Account.t) : Account.t :=
  Account.Build a.(Account.id) a.(Account.bankName) a.(Account.currency)
    a.(Account.investmentType) a.(Account.startDate) a.(Account.maturityPeriod)
    a.(Account.riskLevel) a.(Account.currentBalance)
    (num_or a.(Account.initialCapital) a.(Account.currentBalance)).

(** A writable account whose initial capital is truthy, or equal to the
    balance. *)
Definition exportableAccount (a : Account.t) : Prop :=
  writableAccount a
  /\ num_or a.(Account.initialCapital) a.(Account.currentBalance)
     = a.(Account.initialCapital).

Definition exportableTransaction (t : Transaction.t) : Prop :=
  plain t.(Transaction.id) = true
  /\ plain t.(Transaction.accountId) = true
  /\ plain t.(Transaction.date) = true
  /\ printedOrZero t.(Transaction.previousBalance)
  /\ printedOrZero t.(Transaction.currentBalance)
  /\ printedOrZero t.(Transaction.userDeposit)
  /\ printedOrZero t.(Transaction.withdrawal)
  /\ printedOrZero t.(Transaction.calculatedProfit)
  /\ printedOrZero t.(Transaction.profitPercentage)
  /\ plain t.(Transaction.type) = true
  /\ readAsData (transactionRow t) = true.
End Exportable.

(** A row as the export writes it: fields, some between quotes, with commas
    between them. *)
Definition renderField (field : bool * string) : string :=
  if fst field then String Str.quote (snd field ++ String Str.quote "")
  else snd field.

Fixpoint joinFields (fields : list (bool * string)) : string :=
  match fields with
  | [] => EmptyString
  | field :: rest =>
      match rest with
      | [] => renderField field
      | _ :: _ =>
          if fst field
          then String Str.quote
                 (snd field ++ String Str.quote (String Str.comma (joinFields rest)))
          else (snd field ++ String Str.comma (joinFields rest))%string
      end
  end.

Definition fieldOk (field : bool * string) : Prop :=
  if fst field then quotable (snd field) = true else plain (snd field) = true.

(** The row ends with a bare field. *)
Fixpoint endsBare (fields : list (bool * string)) : Prop :=
  match fields with
  | [] => False
  | field :: rest =>
      match rest with
      | [] => fst field = false
      | _ :: _ => endsBare rest
      end
  end.

Section RowFields.
Context {N : JSNumber} {S : JSToString}.

Definition accountFields (acc : Account.t) : list (bool * string) :=
  [(false, acc.(Account.id)); (true, acc.(Account.bankName));
   (false, acc.(Account.currency)); (true, acc.(Account.investmentType));
   (false, acc.(Account.startDate)); (false, toString acc.(Account.maturityPeriod));
   (false, acc.(Account.riskLevel)); (false, toString acc.(Account.currentBalance));
   (false, toString acc.(Account.initialCapital))].

Definition transactionFields (tx : Transaction.t) : list (bool * string) :=
  [(false, tx.(Transaction.id)); (false, tx.(Transaction.accountId));
   (false, tx.(Transaction.date)); (false, toString tx.(Transaction.previousBalance));
   (false, toString tx.(Transaction.currentBalance));
   (false, toString tx.(Transaction.userDeposit));
   (false, toString tx.(Transaction.withdrawal));
   (false, toString tx.(Transaction.calculatedProfit));
   (false, toString tx.(Transaction.profitPercentage));
   (false, tx.(Transaction.type))].
End RowFields.

(** Lines, each followed by a line feed. *)
Definition concatLines (lines : list string) : string :=
  fold_right (fun line rest => (line ++ newline ++ rest)%string) EmptyString lines.

(** A line the parser takes as it is: free of line breaks, and trimmed. *)
Definition wholeLine (line : string) : Prop :=
  noChar [Str.LF] line = true /\ noChar [Str.CR] line = true
  /\ Str.trim line = line.

(** A printer for the examples, on exact numbers: the decimal digits of a
    natural number, which [SampleRuntime] reads back. *)
Definition SampleToString : JSToString (N := Exact) :=
  {| toString := fun x =>
       NilZero.string_of_uint (N.to_uint (Z.to_N (Qnum (this x)))) |}.

(** Choosing a file in the import wizard and confirming the preview. *)
Definition importFile {N : JSNumber} {R : JSRuntime} (app : App.State)
    (content : string) : App.State :=
  ImportWizard.handleConfirm
    (ImportWizard.onload ImportWizard.initial content) app.

(** An account without capital, with a balance. *)
Definition dormant : Account.t (N := Exact) :=
  Account.Build (N := Exact) "5" "Emlak Katilim" Currency.TRY
    InvestmentType.REAL_ESTATE "2024-01-01" (Q2Qc 12) "High" (Q2Qc 500) (Q2Qc 0).

(** ** The TransactionModal of src/unnamed/part_002 *)

Module TransactionModal.
Section TransactionModal.
Context {N : JSNumber}.

(** The form's hooks. *)
Record Form : Type := {
  newBalance : num;
  userDeposit : num;
  withdrawal : num;
  date : string
}.

(** [editTransaction ? editTransaction.previousBalance : account.currentBalance] *)
Definition baseBalance (account : Account.t) (editTransaction : option Transaction.t)
  : num :=
  match editTransaction with
  | Some e => e.(Transaction.previousBalance)
  | None => account.(Account.currentBalance)
  end.

(** The memoized preview. *)
Definition liveStats (account : Account.t) (editTransaction : option Transaction.t)
    (form : Form) : ProfitStats :=
  calculateProfitStats (baseBalance account editTransaction) form.(newBalance)
    form.(userDeposit) form.(withdrawal).

(** [handleSave]: the transaction handed to [onSave]; [generatedId] is the
    value [generateId()] returns when the modal adds a transaction. *)
Definition handleSave (account : Account.t) (editTransaction : option Transaction.t)
    (form : Form) (generatedId : string) : Transaction.t :=
  let stats := liveStats account editTransaction form in
  Transaction.Build
    match editTransaction with
    | Some e => e.(Transaction.id)
    | None => generatedId
    end
    account.(Account.id) form.(date)
    (baseBalance account editTransaction)
    form.(newBalance) form.(userDeposit) form.(withdrawal)
    stats.(profitAmount) stats.(profitPercentage) stats.(type).
End TransactionModal.
End TransactionModal.

(** No transaction of the account is dated after [date]: the dates are
    ones the runtime parses, and none has a greater time value. *)
Definition latestEntry {N : JSNumber} {D : JSDate} (accountId date : string)
    (txs : list Transaction.t) : Prop :=
  forall t, In t txs -> t.(Transaction.accountId) = accountId ->
    notLater t.(Transaction.date) date.

(** Two transactions agree where the healer reads them; outside the account
    being healed they are the same. *)
Definition sameForHeal {N : JSNumber} (accountId : string) (a b : Transaction.t)
  : Prop :=
  inputsOf a = inputsOf b
  /\ (a.(Transaction.accountId) <> accountId -> a = b).
(** * Theorems *)

(* Decimal literals stand for the nearest binary64 value, as in the source
   language. *)
Set Warnings "-inexact-float".

Example classify_float_mixed :
  calculateProfitStats (N := Float64) 100%float 120%float 10%float 0%float
  = @Build_ProfitStats Float64 10%float 10%float TransactionType.MIXED.
Proof. vm_compute. reflexivity. Qed.

(** Equations between rationals in canonical form are decided on the fractions. *)
Ltac qc_eq := apply Qc_is_canon; vm_compute; reflexivity.

Example classify_exact_mixed :
  let s := calculateProfitStats (N := Exact) (Q2Qc 100) (Q2Qc 120) (Q2Qc 10) (Q2Qc 0) in
  profitAmount s = Q2Qc 10 /\ profitPercentage s = Q2Qc 10
  /\ type s = TransactionType.MIXED.
Proof. repeat split; try qc_eq. Qed.


(** ** The sort *)

Section ArraySortFacts.
Variable A : Type.
Variable compareFn : A -> A -> Z.

Lemma sort_insert_perm (x : A) (l : list A) :
  Permutation (sort_insert compareFn x l) (x :: l).
Proof.
  induction l as [|y l IH]; simpl.
  - apply Permutation_refl.
  - destruct (compareFn x y <=? 0)%Z.
    + apply Permutation_refl.
    + eapply perm_trans; [apply perm_skip, IH | apply perm_swap].
Qed.

Lemma Array_sort_perm (l : list A) : Permutation (Array_sort compareFn l) l.
Proof.
  induction l as [|x l IH]; simpl.
  - constructor.
  - eapply perm_trans; [apply sort_insert_perm | apply perm_skip, IH].
Qed.

(** A list in order is left as it is: the sort is stable. *)
Lemma Array_sort_ascending_id (l : list A) :
  ascending compareFn l -> Array_sort compareFn l = l.
Proof.
  induction l as [|x l IH]; simpl; [reflexivity|].
  intros [Hx Hl]. rewrite (IH Hl).
  destruct l as [|y l']; simpl; [reflexivity|].
  apply Z.leb_le in Hx. now rewrite Hx.
Qed.

(** The comparator is total: of two elements, one is in order with the other. *)
Hypothesis compareFn_total :
  forall a b, (0 < compareFn a b)%Z -> (compareFn b a <= 0)%Z.

Lemma sort_insert_ascending (x : A) (l : list A) :
  ascending compareFn l -> ascending compareFn (sort_insert compareFn x l).
Proof.
  induction l as [|y l IH]; simpl; [tauto|].
  intros [Hy Hl].
  destruct (compareFn x y <=? 0)%Z eqn:E.
  - apply Z.leb_le in E. simpl. tauto.
  - apply Z.leb_gt in E. specialize (IH Hl).
    simpl. split; [|exact IH].
    destruct l as [|z l']; simpl.
    + now apply compareFn_total.
    + destruct (compareFn x z <=? 0)%Z; [now apply compareFn_total | exact Hy].
Qed.

Lemma Array_sort_ascending (l : list A) : ascending compareFn (Array_sort compareFn l).
Proof.
  induction l as [|x l IH]; simpl; [exact I | now apply sort_insert_ascending].
Qed.

Lemma Array_sort_idempotent (l : list A) :
  Array_sort compareFn (Array_sort compareFn l) = Array_sort compareFn l.
Proof. apply Array_sort_ascending_id, Array_sort_ascending. Qed.
End ArraySortFacts.

(** Stability, for a comparator that is a difference of keys: the elements
    of any one key come out in their input order. *)
Section ArraySortStable.
Variable A : Type.
Variable key : A -> Z.
Let compareFn (a b : A) : Z := (key a - key b)%Z.

Lemma sort_insert_same_key (k : Z) (x : A) (l : list A) :
  filter (fun a => (key a =? k)%Z) (sort_insert compareFn x l)
  = filter (fun a => (key a =? k)%Z) (x :: l).
Proof.
  induction l as [|y l IH]; [reflexivity|].
  cbn [sort_insert]. destruct (compareFn x y <=? 0)%Z eqn:E; [reflexivity|].
  apply Z.leb_gt in E. unfold compareFn in E.
  cbn [filter] in *. rewrite IH.
  destruct (key x =? k)%Z eqn:Ex; [|reflexivity].
  apply Z.eqb_eq in Ex.
  assert (Ey : (key y =? k)%Z = false) by (apply Z.eqb_neq; lia).
  now rewrite Ey.
Qed.

Lemma Array_sort_stable (k : Z) (l : list A) :
  filter (fun a => (key a =? k)%Z) (Array_sort compareFn l)
  = filter (fun a => (key a =? k)%Z) l.
Proof.
  induction l as [|x l IH]; [reflexivity|].
  cbn [Array_sort]. rewrite sort_insert_same_key. cbn [filter]. now rewrite IH.
Qed.
End ArraySortStable.

Lemma last_error_In {A : Type} (l : list A) (x : A) : last_error l = Some x -> In x l.
Proof.
  induction l as [|y l IH]; simpl; [discriminate|].
  destruct l as [|z l']; [intros [= ->]; now left | intros H; right; now apply IH].
Qed.

Lemma last_error_None {A : Type} (l : list A) : last_error l = None -> l = [].
Proof.
  induction l as [|x l IH]; [reflexivity|]. simpl.
  destruct l as [|y l']; [discriminate|]. intros H. now apply IH in H.
Qed.

(** ** The healer *)

Section HealerFacts.
Context {N : JSNumber} {D : JSDate}.

Lemma compareByDate_total (a b : Transaction.t) :
  (0 < compareByDate a b)%Z -> (compareByDate b a <= 0)%Z.
Proof.
  unfold compareByDate, dateDifference.
  destruct (dateTime a.(Transaction.date)), (dateTime b.(Transaction.date)); lia.
Qed.

Lemma healTx_idempotent (r : num) (tx : Transaction.t) :
  healTx r (healTx r tx) = healTx r tx.
Proof. reflexivity. Qed.


Lemma healChain_length (l : list Transaction.t) :
  forall r, List.length (healChain r l) = List.length l.
Proof. induction l as [|tx l IH]; intros r; simpl; [reflexivity | now rewrite IH]. Qed.

Lemma healChain_ascending (l : list Transaction.t) :
  forall r, ascending compareByDate l -> ascending compareByDate (healChain r l).
Proof.
  induction l as [|tx l IH]; intros r; simpl; [tauto|].
  intros [H1 H2]. split; [|now apply IH].
  destruct l as [|tx' l']; simpl; [exact I | exact H1].
Qed.

Lemma healChain_ofAccount (accountId : string) (l : list Transaction.t) :
  forall r, Forall (fun t => ofAccount accountId t = true) l ->
            Forall (fun t => ofAccount accountId t = true) (healChain r l).
Proof.
  induction l as [|tx l IH]; intros r H; simpl; [constructor|].
  inversion H; subst. constructor; [assumption | now apply IH].
Qed.

Lemma filter_all {A : Type} (f : A -> bool) (l : list A) :
  Forall (fun x => f x = true) l -> filter f l = l.
Proof. induction 1 as [|x l Hx _ IH]; simpl; [reflexivity | now rewrite Hx, IH]. Qed.

Lemma filter_none {A : Type} (f : A -> bool) (l : list A) :
  Forall (fun x => f x = true) l -> filter (fun x => negb (f x)) l = [].
Proof. induction 1 as [|x l Hx _ IH]; simpl; [reflexivity | now rewrite Hx]. Qed.

Lemma filter_filter_same {A : Type} (f : A -> bool) (l : list A) :
  filter f (filter f l) = filter f l.
Proof.
  apply filter_all, Forall_forall. intros x Hx. now apply filter_In in Hx.
Qed.

Lemma filter_negb_filter {A : Type} (f : A -> bool) (l : list A) :
  filter f (filter (fun x => negb (f x)) l) = [].
Proof.
  induction l as [|x l IH]; simpl; [reflexivity|].
  destruct (f x) eqn:E; simpl; [assumption | now rewrite E].
Qed.

Lemma Forall_perm_ofAccount (accountId : string) (l l' : list Transaction.t) :
  Permutation l l' ->
  Forall (fun t => ofAccount accountId t = true) l' ->
  Forall (fun t => ofAccount accountId t = true) l.
Proof.
  intros P H. rewrite Forall_forall in *. intros x Hx. apply H.
  eapply Permutation_in; eassumption.
Qed.

Lemma chainOf_ofAccount (accountId : string) (txs : list Transaction.t) :
  Forall (fun t => ofAccount accountId t = true) (chainOf accountId txs).
Proof.
  unfold chainOf. eapply Forall_perm_ofAccount; [apply Array_sort_perm|].
  apply Forall_forall. intros x Hx. now apply filter_In in Hx.
Qed.

(** The healed transactions, split again: the others, then the chain. *)
Lemma filter_healed_others (accountId : string) (txs : list Transaction.t) (r : num) :
  filter (fun t => negb (ofAccount accountId t))
    (filter (fun t => negb (ofAccount accountId t)) txs
     ++ healChain r (chainOf accountId txs))
  = filter (fun t => negb (ofAccount accountId t)) txs.
Proof.
  rewrite filter_app, filter_filter_same.
  rewrite (@filter_none _ (ofAccount accountId) (healChain r (chainOf accountId txs))).
  - apply app_nil_r.
  - apply healChain_ofAccount, chainOf_ofAccount.
Qed.

Lemma filter_healed_chain (accountId : string) (txs : list Transaction.t) (r : num) :
  filter (ofAccount accountId)
    (filter (fun t => negb (ofAccount accountId t)) txs
     ++ healChain r (chainOf accountId txs))
  = healChain r (chainOf accountId txs).
Proof.
  rewrite filter_app, filter_negb_filter. simpl.
  apply filter_all, healChain_ofAccount, chainOf_ofAccount.
Qed.

Lemma chainOf_healed_chain (accountId : string) (txs : list Transaction.t) (r : num) :
  chainOf accountId
    (filter (fun t => negb (ofAccount accountId t)) txs
     ++ healChain r (chainOf accountId txs))
  = healChain r (chainOf accountId txs).
Proof.
  unfold chainOf at 1. rewrite filter_healed_chain.
  apply Array_sort_ascending_id, healChain_ascending.
  apply Array_sort_ascending, compareByDate_total.
Qed.

(** What [healTransactionChain] returns for an account that exists. *)
Lemma heal_found (txs : list Transaction.t) (accountId : string)
    (accs : list Account.t) (account : Account.t) :
  find (fun a => (a.(Account.id) =? accountId)%string) accs = Some account ->
  healTransactionChain txs accountId accs
  = let healed := healChain (num_or account.(Account.initialCapital) num0)
                            (chainOf accountId txs) in
    {| healedTxs := filter (fun t => negb (ofAccount accountId t)) txs ++ healed;
       updatedAccounts :=
         map (fun a => if (a.(Account.id) =? accountId)%string
                       then Account.with_currentBalance a
                              match last_error healed with
                              | Some tx => tx.(Transaction.currentBalance)
                              | None => account.(Account.initialCapital)
                              end
                       else a) accs |}.
Proof. intros H. unfold healTransactionChain. now rewrite H. Qed.
End HealerFacts.

Section ChainFacts.
Context {N : JSNumber} {D : JSDate}.

Lemma healChain_head (l : list Transaction.t) (r : num) (tx : Transaction.t) :
  hd_error (healChain r l) = Some tx -> tx.(Transaction.previousBalance) = r.
Proof. destruct l; simpl; [discriminate | now intros [= <-]]. Qed.

Lemma healChain_consecutive (l : list Transaction.t) :
  forall r i earlier later,
    nth_error (healChain r l) i = Some earlier ->
    nth_error (healChain r l) (S i) = Some later ->
    later.(Transaction.previousBalance) = earlier.(Transaction.currentBalance).
Proof.
  induction l as [|tx l IH]; intros r i earlier later; simpl.
  - destruct i; discriminate.
  - destruct i as [|i]; simpl.
    + intros [= <-] H. simpl.
      apply healChain_head with (l := l). now destruct (healChain _ l).
    + apply IH.
Qed.

Lemma healChain_inputs (l : list Transaction.t) :
  forall r, map inputsOf (healChain r l) = map inputsOf l.
Proof. induction l as [|tx l IH]; intros r; simpl; [reflexivity | now rewrite IH]. Qed.

Lemma chainOf_healed (txs : list Transaction.t) (accountId : string)
    (accs : list Account.t) (account : Account.t) :
  find (fun a => (a.(Account.id) =? accountId)%string) accs = Some account ->
  chainOf accountId (healTransactionChain txs accountId accs).(healedTxs)
  = healChain (num_or account.(Account.initialCapital) num0) (chainOf accountId txs).
Proof.
  intros H. erewrite heal_found by eassumption. simpl. apply chainOf_healed_chain.
Qed.
End ChainFacts.

(** ** Date order *)

Section DateOrder.
Context {N : JSNumber} {D : JSDate}.

Lemma notLater_refl (d : string) : dateTime d <> None -> notLater d d.
Proof.
  intros H. unfold notLater. destruct (dateTime d) as [x|]; [|contradiction].
  exists x, x. repeat split. lia.
Qed.

Lemma notLater_trans (d e f : string) :
  notLater d e -> notLater e f -> notLater d f.
Proof.
  intros (x & y & Hx & Hy & Hxy) (y' & z & Hy' & Hz & Hyz).
  rewrite Hy in Hy'. injection Hy' as <-.
  exists x, z. repeat split; [assumption | assumption | lia].
Qed.

Lemma notLater_compare (a b : Transaction.t) :
  notLater a.(Transaction.date) b.(Transaction.date) ->
  (compareByDate a b <= 0)%Z.
Proof.
  intros (x & y & Hx & Hy & Hxy). unfold compareByDate, dateDifference.
  rewrite Hx, Hy. lia.
Qed.

Lemma compare_notLater (a b : Transaction.t) :
  dateTime a.(Transaction.date) <> None ->
  dateTime b.(Transaction.date) <> None ->
  (compareByDate a b <= 0)%Z ->
  notLater a.(Transaction.date) b.(Transaction.date).
Proof.
  unfold compareByDate, dateDifference, notLater.
  destruct (dateTime a.(Transaction.date)) as [x|]; [|contradiction].
  destruct (dateTime b.(Transaction.date)) as [y|]; [|contradiction].
  intros _ _ H. exists x, y. repeat split. lia.
Qed.

(** With dates that parse, the order of the comparator is the order of the
    dates. *)
Lemma ascending_inDateOrder (l : list Transaction.t) :
  Forall (fun t => dateTime t.(Transaction.date) <> None) l ->
  ascending compareByDate l -> inDateOrder l.
Proof.
  induction 1 as [|a l Ha Hl IH]; [trivial|].
  cbn [ascending inDateOrder]. intros [H1 H2]. split; [|now apply IH].
  destruct l as [|b l']; [exact I|].
  inversion Hl; subst. now apply compare_notLater.
Qed.

Lemma inDateOrder_ascending (l : list Transaction.t) :
  inDateOrder l -> ascending compareByDate l.
Proof.
  induction l as [|a l IH]; [trivial|].
  cbn [ascending inDateOrder]. intros [H1 H2]. split; [|now apply IH].
  destruct l as [|b l']; [exact I | now apply notLater_compare].
Qed.

Lemma inDateOrder_healChain (l : list Transaction.t) :
  forall r, inDateOrder l -> inDateOrder (healChain r l).
Proof.
  induction l as [|tx l IH]; intros r; simpl; [tauto|].
  intros [H1 H2]. split; [|now apply IH].
  destruct l as [|tx' l']; simpl; [exact I | exact H1].
Qed.

Lemma inDateOrder_last (l : list Transaction.t) (t : Transaction.t) :
  Forall (fun t => dateTime t.(Transaction.date) <> None) l ->
  inDateOrder l -> last_error l = Some t ->
  forall u, In u l -> notLater u.(Transaction.date) t.(Transaction.date).
Proof.
  induction 1 as [|x l Hx Hl IH]; [discriminate|].
  cbn [inDateOrder]. intros [H1 H2] Hlast u Hu.
  destruct l as [|y l'].
  - injection Hlast as <-. destruct Hu as [<- | []]. now apply notLater_refl.
  - change (last_error (x :: y :: l')) with (last_error (y :: l')) in Hlast.
    specialize (IH H2 Hlast). destruct Hu as [<- | Hu]; [|now apply IH].
    apply notLater_trans with (e := y.(Transaction.date)); [exact H1|].
    apply IH. now left.
Qed.

Lemma chainOf_datesParse (accountId : string) (txs : list Transaction.t) :
  datesParse accountId txs ->
  Forall (fun t => dateTime t.(Transaction.date) <> None) (chainOf accountId txs).
Proof.
  intros H. apply Forall_forall. intros t Ht.
  assert (Hin : In t (filter (ofAccount accountId) txs)).
  { eapply Permutation_in; [apply Array_sort_perm | exact Ht]. }
  apply filter_In in Hin. destruct Hin as [Hin Hof].
  apply String.eqb_eq in Hof. now apply H.
Qed.

(** With dates that parse, the sort puts the chain in date order. *)
Lemma chainOf_inDateOrder (accountId : string) (txs : list Transaction.t) :
  datesParse accountId txs -> inDateOrder (chainOf accountId txs).
Proof.
  intros H. apply ascending_inDateOrder; [now apply chainOf_datesParse|].
  apply Array_sort_ascending, compareByDate_total.
Qed.

Lemma healChain_datesParse (l : list Transaction.t) :
  forall r, Forall (fun t => dateTime t.(Transaction.date) <> None) l ->
    Forall (fun t => dateTime t.(Transaction.date) <> None) (healChain r l).
Proof.
  induction l as [|tx l IH]; intros r H; simpl; [constructor|].
  inversion H; subst. constructor; [assumption | now apply IH].
Qed.

(** The transactions of a healed account, as they stand in the healed
    ledger. *)
Lemma healed_own (txs : list Transaction.t) (accountId : string)
    (accs : list Account.t) (account : Account.t) :
  find (fun a => (a.(Account.id) =? accountId)%string) accs = Some account ->
  filter (ofAccount accountId) (healTransactionChain txs accountId accs).(healedTxs)
  = healChain (num_or account.(Account.initialCapital) num0) (chainOf accountId txs).
Proof.
  intros H. erewrite heal_found by eassumption. cbn [healedTxs].
  apply filter_healed_chain.
Qed.
End DateOrder.

(** In exact arithmetic every initial capital is 0 or a number that is not
    zero. *)
Lemma exact_capital_is_number (q : Qc) :
  @num_truthy Exact q = true \/ q = @num0 Exact.
Proof.
  cbn. destruct (Qc_eq_bool q (Q2Qc 0)) eqn:E.
  - right. now apply Qc_eq_bool_correct.
  - now left.
Qed.

(** C1, as amended.  After healing an account whose transactions all have a
    date that the runtime parses, the transactions of the account, as they
    stand in the healed ledger, are in date order and linked: the first
    one's [previousBalance] is [initialCapital || 0] (the initial capital
    itself when that is 0 or a number that is not zero), and each later
    one's [previousBalance] is the [currentBalance] of the one before it. *)
Theorem heal_chain_continuity :
  forall (N : JSNumber) (D : JSDate) (allTransactions : list Transaction.t)
         (accountId : string) (allAccounts : list Account.t) (account : Account.t),
    find (fun a => (a.(Account.id) =? accountId)%string) allAccounts = Some account ->
    datesParse accountId allTransactions ->
    let chain :=
      filter (ofAccount accountId)
        (healTransactionChain allTransactions accountId allAccounts).(healedTxs) in
    inDateOrder chain
    /\ (forall first, hd_error chain = Some first ->
          first.(Transaction.previousBalance)
          = num_or account.(Account.initialCapital) num0)
    /\ (num_truthy account.(Account.initialCapital) = true
          \/ account.(Account.initialCapital) = num0 ->
        forall first, hd_error chain = Some first ->
          first.(Transaction.previousBalance) = account.(Account.initialCapital))
    /\ (forall i earlier later,
          nth_error chain i = Some earlier ->
          nth_error chain (S i) = Some later ->
          later.(Transaction.previousBalance) = earlier.(Transaction.currentBalance)).
Proof.
  intros N D txs accountId accs account Hfind Hdates chain.
  subst chain. rewrite (healed_own _ _ _ Hfind). repeat split.
  - now apply inDateOrder_healChain, chainOf_inDateOrder.
  - intros first H. now apply healChain_head in H.
  - intros Hcap first H. apply healChain_head in H. rewrite H.
    unfold num_or. destruct Hcap as [-> | Hz]; [reflexivity|].
    rewrite Hz. now destruct (num_truthy num0).
  - apply healChain_consecutive.
Qed.

Lemma ledger_datesParse : datesParse (D := IsoDate) "1" Ledger.transactions.
Proof.
  intros t [<- | [<- | [<- | []]]] _; vm_compute; discriminate.
Qed.

Lemma heal_chain_continuity_ledger :
  let chain :=
    filter (ofAccount "1")
      (healTransactionChain (D := IsoDate) Ledger.transactions "1"
         Ledger.accounts).(healedTxs) in
  inDateOrder (D := IsoDate) chain
  /\ (forall first, hd_error chain = Some first ->
        first.(Transaction.previousBalance)
        = num_or Ledger.kuveyt.(Account.initialCapital) num0)
  /\ (num_truthy Ledger.kuveyt.(Account.initialCapital) = true
        \/ Ledger.kuveyt.(Account.initialCapital) = num0 ->
      forall first, hd_error chain = Some first ->
        first.(Transaction.previousBalance) = Ledger.kuveyt.(Account.initialCapital))
  /\ (forall i earlier later,
        nth_error chain i = Some earlier ->
        nth_error chain (S i) = Some later ->
        later.(Transaction.previousBalance) = earlier.(Transaction.currentBalance)).
Proof.
  apply (@heal_chain_continuity Float64 IsoDate Ledger.transactions "1"
           Ledger.accounts Ledger.kuveyt).
  - reflexivity.
  - exact ledger_datesParse.
Defined.

(** C1 as stated fails when the runtime does not parse a date of the account:
    the comparator then returns NaN, which the sort reads as +0, and the
    chain February, not-a-date, January is left as it stands.  The heal links
    February on the initial capital, and no transaction that may stand first
    in date order (none is earlier: January, or the one without a date) has
    the initial capital as previous balance.  It fails as well for an
    initial capital that is NaN: the first previous balance is then 0. *)
Lemma heal_chain_unparseable_date :
  (let chain :=
     filter (ofAccount "1")
       (healTransactionChain (D := IsoDate) Unparsed.transactions "1"
          Ledger.accounts).(healedTxs) in
   ~ exists first,
       In first chain
       /\ (forall t, In t chain ->
             ~ earlier (D := IsoDate) t.(Transaction.date) first.(Transaction.date))
       /\ PrimFloat.eqb first.(Transaction.previousBalance)
            Ledger.kuveyt.(Account.initialCapital) = true)
  /\ (let chain :=
        filter (ofAccount "9")
          (healTransactionChain (D := IsoDate) [NoCapital.statement] "9"
             [NoCapital.account]).(healedTxs) in
      PrimFloat.is_nan NoCapital.account.(Account.initialCapital) = true
      /\ map Transaction.previousBalance chain = [0%float]).
Proof.
  split; [|split; reflexivity].
  intros chain [first [Hin [Hfirst Heq]]].
  assert (Hchain : chain = [healTx (N := Float64) 1000%float Ledger.february;
                            healTx (N := Float64) 1250%float Unparsed.undated;
                            healTx (N := Float64) 1300%float Ledger.january])
    by reflexivity.
  rewrite Hchain in Hin, Hfirst. clear Hchain.
  destruct Hin as [<- | [<- | [<- | []]]].
  - apply (Hfirst (healTx (N := Float64) 1300%float Ledger.january)).
    + right. right. left. reflexivity.
    + exists 20240101%Z, 20240201%Z. repeat split.
  - vm_compute in Heq. discriminate Heq.
  - vm_compute in Heq. discriminate Heq.
Qed.

(** The healed chain of that ledger. *)
Example healed_unparsed_chain :
  map (fun t => (t.(Transaction.id), t.(Transaction.previousBalance)))
      (healTransactionChain (D := IsoDate) Unparsed.transactions "1"
         Ledger.accounts).(healedTxs)
  = [("t-feb", 1000%float); ("t-bad", 1250%float); ("t-jan", 1300%float)].
Proof. vm_compute. reflexivity. Qed.

(** The chain of the example after healing: January on the initial capital,
    then February on January's balance. *)
Example healed_ledger_chain :
  map (fun t => (t.(Transaction.id), t.(Transaction.previousBalance),
                 t.(Transaction.calculatedProfit), t.(Transaction.type)))
      (chainOf (D := IsoDate) "1"
         (healTransactionChain (D := IsoDate) Ledger.transactions "1"
            Ledger.accounts).(healedTxs))
  = [("t-jan", 1000%float, 100%float, TransactionType.BANK_PROFIT);
     ("t-feb", 1100%float, 50%float, TransactionType.MIXED)].
Proof. vm_compute. reflexivity. Qed.

Section HealTwice.
Context {N : JSNumber} {D : JSDate}.

(** [map] with a function that keeps what [find] tests. *)
Lemma find_map_keeps {A : Type} (p : A -> bool) (g : A -> A) (l : list A) :
  (forall a, p (g a) = p a) -> find p (map g l) = option_map g (find p l).
Proof.
  intros Hp. induction l as [|a l IH]; simpl; [reflexivity|].
  rewrite Hp. now destruct (p a).
Qed.

Lemma setBalance_id (accountId : string) (b : num) (a : Account.t) :
  (setBalance accountId b a).(Account.id) = a.(Account.id).
Proof. unfold setBalance. now destruct (_ =? _)%string. Qed.


End HealTwice.


(** C6.  When no account of the collection has the target id, the healer
    returns both collections as they were given; it is a total function, so
    there is nothing it could raise. *)
Theorem heal_missing_account_noop :
  forall (N : JSNumber) (D : JSDate) (allTransactions : list Transaction.t)
         (accountId : string) (allAccounts : list Account.t),
    (forall a, In a allAccounts -> a.(Account.id) <> accountId) ->
    healTransactionChain allTransactions accountId allAccounts
    = {| healedTxs := allTransactions; updatedAccounts := allAccounts |}.
Proof.
  intros N D txs accountId accs Hnone. unfold healTransactionChain.
  destruct (find _ accs) as [account|] eqn:Hfind; [|reflexivity].
  apply find_some in Hfind. destruct Hfind as [Hin Hid].
  apply String.eqb_eq in Hid. now apply Hnone in Hin.
Qed.

Lemma heal_missing_account_noop_ledger :
  healTransactionChain (D := IsoDate) Ledger.transactions "nonexistent-id"
    Ledger.accounts
  = {| healedTxs := Ledger.transactions; updatedAccounts := Ledger.accounts |}.
Proof.
  apply (@heal_missing_account_noop Float64 IsoDate Ledger.transactions
           "nonexistent-id" Ledger.accounts).
  intros a [<- | [<- | []]]; discriminate.
Defined.

Section Frame.
Context {N : JSNumber} {D : JSDate}.

Lemma sameButBalance_refl (a : Account.t) : sameButBalance a a.
Proof. now destruct a. Qed.

Lemma Forall2_map_right {A B : Type} (R : A -> B -> Prop) (g : A -> B) (l : list A) :
  (forall a, R a (g a)) -> Forall2 R l (map g l).
Proof. intros H. induction l; simpl; constructor; auto. Qed.

Lemma Forall2_same {A : Type} (R : A -> A -> Prop) (l : list A) :
  (forall a, R a a) -> Forall2 R l l.
Proof. intros H. induction l; constructor; auto. Qed.

Lemma accountFrame_setBalance (accountId : string) (b : num) (a : Account.t) :
  accountFrame accountId a (setBalance accountId b a).
Proof.
  unfold accountFrame, setBalance.
  destruct (a.(Account.id) =? accountId)%string; reflexivity.
Qed.

Lemma accountFrame_refl (accountId : string) (a : Account.t) :
  accountFrame accountId a a.
Proof.
  unfold accountFrame. destruct (_ =? _)%string;
    [apply sameButBalance_refl | reflexivity].
Qed.
End Frame.

(** C7.  Healing account A changes nothing outside A.  The transactions of
    the other accounts are in the output as they were, and in their order;
    every account with another id is in the output account list unchanged,
    at its place, and an account with id A differs at most in
    [currentBalance]; A's own transactions keep the fields the caller
    supplied (id, accountId, date, currentBalance, userDeposit,
    withdrawal), so at most their derived fields differ. *)
Theorem heal_frame :
  forall (N : JSNumber) (D : JSDate) (allTransactions : list Transaction.t)
         (accountId : string) (allAccounts : list Account.t),
    let r := healTransactionChain allTransactions accountId allAccounts in
    filter (fun t => negb (ofAccount accountId t)) r.(healedTxs)
      = filter (fun t => negb (ofAccount accountId t)) allTransactions
    /\ Forall2 (accountFrame accountId) allAccounts r.(updatedAccounts)
    /\ Permutation (map inputsOf (filter (ofAccount accountId) r.(healedTxs)))
                   (map inputsOf (filter (ofAccount accountId) allTransactions)).
Proof.
  intros N D txs accountId accs r. subst r.
  destruct (find (fun a => (a.(Account.id) =? accountId)%string) accs)
    as [account|] eqn:Hfind.
  - erewrite heal_found by eassumption. cbn [healedTxs updatedAccounts].
    repeat split.
    + apply filter_healed_others.
    + apply Forall2_map_right. intros a. apply accountFrame_setBalance.
    + rewrite filter_healed_chain, healChain_inputs.
      apply Permutation_map. unfold chainOf. apply Array_sort_perm.
  - unfold healTransactionChain. rewrite Hfind. cbn [healedTxs updatedAccounts].
    repeat split.
    + apply Forall2_same, accountFrame_refl.
    + apply Permutation_refl.
Qed.

(** The example ledger: healing account 1 leaves account 2 and its
    transaction as they were. *)
Example heal_frame_ledger :
  let r := healTransactionChain (D := IsoDate) Ledger.transactions "1" Ledger.accounts in
  filter (fun t => negb (ofAccount "1" t)) r.(healedTxs) = [Ledger.other]
  /\ nth_error r.(updatedAccounts) 1 = Some Ledger.albaraka
  /\ option_map Account.currentBalance (nth_error r.(updatedAccounts) 0)
     = Some 1250%float.
Proof. vm_compute. repeat split. Qed.

(** ** Import *)

Lemma Set_has_In (s : JSSet) (x : string) : Set_has s x = true <-> In x s.
Proof.
  unfold Set_has. rewrite existsb_exists. split.
  - intros [y [Hy E]]. apply String.eqb_eq in E. now subst.
  - intros H. exists x. split; [assumption | apply String.eqb_refl].
Qed.

Lemma str_truthy_iff (s : string) : str_truthy s = true <-> s <> "".
Proof.
  unfold str_truthy. rewrite negb_true_iff. apply String.eqb_neq.
Qed.

Lemma fresh_id_iff (existingIds : JSSet) (x : string) :
  str_truthy x && negb (Set_has existingIds x) = true
  <-> x <> "" /\ ~ In x existingIds.
Proof.
  rewrite andb_true_iff, str_truthy_iff, negb_true_iff, <- Set_has_In.
  now destruct (Set_has existingIds x); intuition.
Qed.

(** C10.  Merging an import keeps every record of the state where it was:
    the new account list is the old one followed by some imported accounts,
    and likewise the transactions.  An imported record is among the added
    ones exactly when its id is not empty and is the id of no record already
    in the state (and, for a transaction, when the imported account list is
    not empty).  With an empty imported account list the state is returned
    as it was, whatever transactions came with it. *)
Theorem handleImport_appends_fresh :
  forall (N : JSNumber) (st : App.State) (newAccounts : list Account.t)
         (newTransactions : list Transaction.t),
    let st' := App.handleImport st newAccounts newTransactions in
    exists (addedAccounts : list Account.t) (addedTransactions : list Transaction.t),
      st'.(App.accounts) = st.(App.accounts) ++ addedAccounts
      /\ st'.(App.transactions) = st.(App.transactions) ++ addedTransactions
      /\ (forall a, In a addedAccounts <->
            In a newAccounts /\ a.(Account.id) <> ""
            /\ ~ In a.(Account.id) (map Account.id st.(App.accounts)))
      /\ (forall t, In t addedTransactions <->
            newAccounts <> [] /\ In t newTransactions /\ t.(Transaction.id) <> ""
            /\ ~ In t.(Transaction.id) (map Transaction.id st.(App.transactions)))
      /\ (newAccounts = [] -> st' = st).
Proof.
  intros N st newAccounts newTransactions st'. subst st'.
  unfold App.handleImport. destruct newAccounts as [|a0 newAccounts].
  - exists [], []. cbn. rewrite !app_nil_r. repeat split; tauto.
  - cbn [List.length Nat.eqb App.accounts App.transactions].
    eexists. eexists. split; [reflexivity|]. split; [reflexivity|].
    split; [|split].
    + intros a. rewrite filter_In, fresh_id_iff. tauto.
    + intros t. rewrite filter_In, fresh_id_iff.
      split; [intros [H1 H2]; repeat split; try tauto; discriminate | tauto].
    + discriminate.
Qed.

(** ** The classifier *)

(** C4.  The type tag follows the first match of the priority list: a
    withdrawal above 0 gives WITHDRAWAL, whatever the deposit and the profit;
    otherwise a deposit above 0 with a profit above 0 gives MIXED; otherwise
    a deposit above 0 gives USER_DEPOSIT; otherwise BANK_PROFIT.  On the
    runtime's numbers, classify(100, 100, 5, 10) is WITHDRAWAL,
    classify(100, 120, 10, 0) is MIXED with profit 10, classify(100, 105,
    10, 0) is USER_DEPOSIT with profit -5 and classify(100, 110, 0, 0) is
    BANK_PROFIT with profit 10. *)
Theorem classify_type_priority :
  (forall (N : JSNumber) (prev curr dep wd : num),
     let s := calculateProfitStats prev curr dep wd in
     ((wd >? num0)%num = true -> s.(type) = TransactionType.WITHDRAWAL)
     /\ ((wd >? num0)%num = false -> (dep >? num0)%num = true ->
         (s.(profitAmount) >? num0)%num = true ->
         s.(type) = TransactionType.MIXED)
     /\ ((wd >? num0)%num = false -> (dep >? num0)%num = true ->
         (s.(profitAmount) >? num0)%num = false ->
         s.(type) = TransactionType.USER_DEPOSIT)
     /\ ((wd >? num0)%num = false -> (dep >? num0)%num = false ->
         s.(type) = TransactionType.BANK_PROFIT))
  /\ (let classify := calculateProfitStats (N := Float64) in
      (classify 100 100 5 10)%float.(type) = TransactionType.WITHDRAWAL
      /\ (classify 100 120 10 0)%float.(type) = TransactionType.MIXED
      /\ (classify 100 120 10 0)%float.(profitAmount) = 10%float
      /\ (classify 100 105 10 0)%float.(type) = TransactionType.USER_DEPOSIT
      /\ (classify 100 105 10 0)%float.(profitAmount) = (-5)%float
      /\ (classify 100 110 0 0)%float.(type) = TransactionType.BANK_PROFIT
      /\ (classify 100 110 0 0)%float.(profitAmount) = 10%float).
Proof.
  split.
  - intros N prev curr dep wd s. subst s. unfold calculateProfitStats.
    cbn [type profitAmount].
    repeat split.
    + intros ->. reflexivity.
    + intros -> -> ->. reflexivity.
    + intros -> -> ->. reflexivity.
    + intros -> ->. reflexivity.
  - vm_compute. repeat split.
Qed.

Lemma classify_type_priority_withdrawal :
  (calculateProfitStats (N := Float64) 100 100 5 10)%float.(type)
  = TransactionType.WITHDRAWAL.
Proof.
  apply (proj1 (proj1 classify_type_priority Float64
                  100%float 100%float 5%float 10%float)).
  reflexivity.
Defined.

(** The divisor on the runtime's numbers is above zero, whatever the inputs
    (NaN and the infinities included): it is an input that compared above
    zero, or 1. *)
Lemma base_positive_float (prev dep : float) :
  (base (N := Float64) prev dep >? num0)%num = true.
Proof.
  unfold base. cbn.
  destruct (PrimFloat.ltb 0 prev) eqn:Hp; [exact Hp|].
  destruct (PrimFloat.ltb 0 dep) eqn:Hd; [exact Hd|].
  reflexivity.
Qed.

Lemma Qc_gt_lt (a b : Qc) : Qc_gt a b = true -> (b < a)%Qc.
Proof.
  unfold Qc_gt, Qccompare, Qclt. intros H. apply Qgt_alt.
  destruct (a ?= b)%Q; try discriminate. reflexivity.
Qed.

Lemma base_positive_exact (prev dep : Qc) :
  (base (N := Exact) prev dep >? num0)%num = true.
Proof.
  unfold base. cbn.
  destruct (Qc_gt prev (Q2Qc 0)) eqn:Hp; [exact Hp|].
  destruct (Qc_gt dep (Q2Qc 0)) eqn:Hd; [exact Hd|].
  reflexivity.
Qed.

(** C5, as the code has it.  The percentage is the profit divided by a
    divisor and multiplied by 100; the divisor is previousBalance when that
    is above 0, else userDeposit when that is above 0, else 1.  So the
    divisor is above 0 for every input, on the runtime's numbers and in
    exact arithmetic: the division is never by zero (nor by NaN or a
    negative number).  classify(0, 50, 0, 0) has percentage 5000, and
    classify(0, 50, 20, 0) has profit 30 and percentage 150. *)
Theorem percentage_divisor_positive :
  (forall (N : JSNumber) (prev curr dep wd : num),
     let s := calculateProfitStats prev curr dep wd in
     s.(profitPercentage) = ((s.(profitAmount) / base prev dep) * num100)%num
     /\ base prev dep
        = if (prev >? num0)%num then prev
          else if (dep >? num0)%num then dep else num1)
  /\ (forall prev dep : float, PrimFloat.ltb 0 (base (N := Float64) prev dep) = true)
  /\ (forall prev dep : Qc, (Q2Qc 0 < base (N := Exact) prev dep)%Qc)
  /\ (let classify := calculateProfitStats (N := Float64) in
      (classify 0 50 0 0)%float.(profitPercentage) = 5000%float
      /\ (classify 0 50 20 0)%float.(profitAmount) = 30%float
      /\ (classify 0 50 20 0)%float.(profitPercentage) = 150%float).
Proof.
  split; [|split; [|split]].
  - intros N prev curr dep wd s. split; reflexivity.
  - exact base_positive_float.
  - intros prev dep. apply Qc_gt_lt. exact (base_positive_exact prev dep).
  - vm_compute. repeat split.
Qed.

(** C5 as stated fails: finite inputs can give an infinite percentage.
    classify(0, 1e308, 0, 0) has profit 1e308 and divisor 1, and the product
    with 100 overflows. *)
Lemma percentage_overflows :
  ~ (forall prev curr dep wd : float,
       is_finite prev = true -> is_finite curr = true ->
       is_finite dep = true -> is_finite wd = true ->
       is_finite
         (calculateProfitStats (N := Float64) prev curr dep wd).(profitPercentage)
       = true).
Proof.
  intros H.
  specialize (H 0%float 1e308%float 0%float 0%float
                eq_refl eq_refl eq_refl eq_refl).
  vm_compute in H. discriminate H.
Qed.

Example percentage_overflow_value :
  (calculateProfitStats (N := Float64) 0 1e308 0 0)%float.(profitPercentage)
  = infinity.
Proof. vm_compute. reflexivity. Qed.

(** Finite inputs can also give NaN: both differences overflow, and the
    profit is an infinity less an infinity. *)
Example percentage_nan_value :
  is_nan (calculateProfitStats (N := Float64)
            (-1.5e308) 1.5e308 1.5e308 (-1.5e308))%float.(profitPercentage)
  = true.
Proof. vm_compute. reflexivity. Qed.

Section ProfitOfHealed.
Context {N : JSNumber} {D : JSDate}.
Local Open Scope num_scope.

Lemma healChain_profit (l : list Transaction.t) :
  forall r t, In t (healChain r l) -> t.(Transaction.calculatedProfit) = profitOfFields t.
Proof.
  induction l as [|tx l IH]; intros r t; simpl; [tauto|].
  intros [<- | H]; [reflexivity | eapply IH; eassumption].
Qed.

Lemma healed_profit (txs : list Transaction.t) (accountId : string)
    (accs : list Account.t) (account : Account.t) (t : Transaction.t) :
  find (fun a => (a.(Account.id) =? accountId)%string) accs = Some account ->
  In t (healTransactionChain txs accountId accs).(healedTxs) ->
  t.(Transaction.accountId) = accountId ->
  t.(Transaction.calculatedProfit) = profitOfFields t.
Proof.
  intros Hfind Hin Hid. erewrite heal_found in Hin by eassumption.
  cbn [healedTxs] in Hin. apply in_app_or in Hin. destruct Hin as [Hin | Hin].
  - apply filter_In in Hin. destruct Hin as [_ Hneg].
    unfold ofAccount in Hneg. rewrite Hid, String.eqb_refl in Hneg. discriminate.
  - eapply healChain_profit; eassumption.
Qed.
End ProfitOfHealed.

Lemma exact_regroup (prev curr dep wd : Qc) :
  ((curr - prev) - (dep - wd) = curr - prev - dep + wd)%Qc.
Proof. ring. Qed.

(** C3, as the code has it.  The classifier's profit is (currentBalance -
    previousBalance) - (userDeposit - withdrawal), each difference taken in
    the runtime's arithmetic; after a heal every transaction of the healed
    account has that value of its own fields as calculatedProfit.  In exact
    arithmetic this is currentBalance - previousBalance - userDeposit +
    withdrawal, for the classifier and for the healed transactions. *)
Theorem profit_identity :
  (forall (N : JSNumber) (prev curr dep wd : num),
     (calculateProfitStats prev curr dep wd).(profitAmount)
     = ((curr - prev) - (dep - wd))%num)
  /\ (forall (N : JSNumber) (D : JSDate) (allTransactions : list Transaction.t)
        (accountId : string) (allAccounts : list Account.t) (account : Account.t)
        (t : Transaction.t),
        find (fun a => (a.(Account.id) =? accountId)%string) allAccounts
          = Some account ->
        In t (healTransactionChain allTransactions accountId allAccounts).(healedTxs) ->
        t.(Transaction.accountId) = accountId ->
        t.(Transaction.calculatedProfit)
        = ((t.(Transaction.currentBalance) - t.(Transaction.previousBalance))
           - (t.(Transaction.userDeposit) - t.(Transaction.withdrawal)))%num)
  /\ (forall prev curr dep wd : Qc,
        (calculateProfitStats (N := Exact) prev curr dep wd).(profitAmount)
        = (curr - prev - dep + wd)%Qc)
  /\ (forall (D : JSDate) (allTransactions : list (Transaction.t (N := Exact)))
        (accountId : string) (allAccounts : list Account.t) (account : Account.t)
        (t : Transaction.t),
        find (fun a => (a.(Account.id) =? accountId)%string) allAccounts
          = Some account ->
        In t (healTransactionChain allTransactions accountId allAccounts).(healedTxs) ->
        t.(Transaction.accountId) = accountId ->
        t.(Transaction.calculatedProfit)
        = (t.(Transaction.currentBalance) - t.(Transaction.previousBalance)
           - t.(Transaction.userDeposit) + t.(Transaction.withdrawal))%Qc).
Proof.
  split; [|split; [|split]].
  - reflexivity.
  - intros N D txs accountId accs account t Hfind Hin Hid.
    exact (healed_profit _ _ _ Hfind Hin Hid).
  - intros prev curr dep wd. cbn. apply exact_regroup.
  - intros D txs accountId accs account t Hfind Hin Hid.
    rewrite (healed_profit _ _ _ Hfind Hin Hid). apply exact_regroup.
Qed.

(** The February statement of the example, healed: its profit is
    (1250 - 1100) - (100 - 0). *)
Lemma profit_identity_ledger :
  let t := Transaction.Build (N := Float64) "t-feb" "1" "2024-02-01" 1100%float
             1250%float 100%float 0%float 50%float
             (50 / 1100 * 100)%float TransactionType.MIXED in
  t.(Transaction.calculatedProfit)
  = ((1250 - 1100) - (100 - 0))%float.
Proof.
  intros t.
  apply (proj1 (proj2 profit_identity) Float64 IsoDate Ledger.transactions "1"
           Ledger.accounts Ledger.kuveyt t).
  - reflexivity.
  - vm_compute. right. right. left. reflexivity.
  - reflexivity.
Defined.

(** C3 as stated fails on the runtime's numbers, where each operation
    rounds: classify(0, 100.3, 0.1, 0.2) has profit (100.3 - 0) - (0.1 - 0.2)
    = 100.39999999999999, and 100.3 - 0 - 0.1 + 0.2 is 100.4. *)
Lemma profit_identity_rounding :
  ~ (forall prev curr dep wd : float,
       PrimFloat.eqb
         (calculateProfitStats (N := Float64) prev curr dep wd).(profitAmount)
         (curr - prev - dep + wd)%float = true).
Proof.
  intros H. specialize (H 0%float 100.3%float 0.1%float 0.2%float).
  vm_compute in H. discriminate H.
Qed.

Example profit_identity_rounding_values :
  (calculateProfitStats (N := Float64) 0 100.3 0.1 0.2)%float.(profitAmount)
  = 100.39999999999999%float
  /\ (100.3 - 0 - 0.1 + 0.2)%float = 100.4%float.
Proof. vm_compute. split; reflexivity. Qed.

(** ** The account balance after a mutation *)

Section BalanceFacts.
Context {N : JSNumber} {D : JSDate}.

(** After a heal, every account with the healed id has the balance of the
    chain. *)
Lemma heal_balance (txs : list Transaction.t) (accountId : string)
    (accs : list Account.t) (account : Account.t) :
  find (fun a => (a.(Account.id) =? accountId)%string) accs = Some account ->
  let r := healTransactionChain txs accountId accs in
  forall a, In a r.(updatedAccounts) -> a.(Account.id) = accountId ->
    a.(Account.currentBalance)
    = chainBalance accountId r.(healedTxs) account.(Account.initialCapital).
Proof.
  intros Hfind r a Hin Hid. subst r. unfold chainBalance.
  erewrite chainOf_healed by eassumption.
  erewrite heal_found in Hin by eassumption. cbn [updatedAccounts] in Hin.
  apply in_map_iff in Hin. destruct Hin as [a0 [<- _]].
  destruct (a0.(Account.id) =? accountId)%string eqn:E.
  - reflexivity.
  - apply String.eqb_neq in E. contradiction.
Qed.
End BalanceFacts.

Section LatestBalance.
Context {N : JSNumber} {D : JSDate}.

Lemma datesParse_append (accountId : string) (txs : list Transaction.t)
    (tx : Transaction.t) :
  datesParse accountId txs -> dateTime tx.(Transaction.date) <> None ->
  datesParse accountId (txs ++ [tx]).
Proof.
  intros H Htx t Ht Hid. apply in_app_or in Ht.
  destruct Ht as [Ht | [<- | []]]; [now apply H | exact Htx].
Qed.

Lemma datesParse_replace (accountId : string) (txs : list Transaction.t)
    (tx : Transaction.t) :
  datesParse accountId txs -> dateTime tx.(Transaction.date) <> None ->
  datesParse accountId
    (map (fun t => if (t.(Transaction.id) =? tx.(Transaction.id))%string
                   then tx else t) txs).
Proof.
  intros H Htx t Ht Hid. apply in_map_iff in Ht. destruct Ht as [t0 [Ht0 Hin]].
  destruct (t0.(Transaction.id) =? tx.(Transaction.id))%string; subst t;
    [exact Htx | now apply H].
Qed.

Lemma datesParse_filter (accountId : string) (f : Transaction.t -> bool)
    (txs : list Transaction.t) :
  datesParse accountId txs -> datesParse accountId (filter f txs).
Proof. intros H t Ht. apply filter_In in Ht. now apply H. Qed.
End LatestBalance.

(** After a heal of an account whose dates the runtime parses, the balance
    of the accounts with the healed id. *)
Lemma healed_balance_latest (N : JSNumber) (D : JSDate)
    (txs : list Transaction.t) (accountId : string) (accs : list Account.t)
    (account : Account.t) :
  find (fun a => (a.(Account.id) =? accountId)%string) accs = Some account ->
  datesParse accountId txs ->
  forall a, In a (healTransactionChain txs accountId accs).(updatedAccounts) ->
    a.(Account.id) = accountId ->
    latestBalance accountId (healTransactionChain txs accountId accs).(healedTxs)
      account.(Account.initialCapital) a.(Account.currentBalance).
Proof.
  intros Hfind Hdates a Ha Hid.
  pose proof (healed_own txs _ _ Hfind) as Hown.
  erewrite heal_found in Ha by eassumption. cbn [updatedAccounts] in Ha.
  apply in_map_iff in Ha. destruct Ha as [a0 [<- _]].
  assert (E : (a0.(Account.id) =? accountId)%string = true).
  { revert Hid. destruct (a0.(Account.id) =? accountId)%string eqn:E;
      intros Hid; [reflexivity|].
    apply String.eqb_neq in E. contradiction. }
  rewrite E. cbn [Account.with_currentBalance Account.currentBalance].
  set (healed := healChain (num_or account.(Account.initialCapital) num0)
                   (chainOf accountId txs)) in *.
  assert (Hvalid : Forall (fun t => dateTime t.(Transaction.date) <> None) healed)
    by now apply healChain_datesParse, chainOf_datesParse.
  assert (Hordered : inDateOrder healed)
    by now apply inDateOrder_healChain, chainOf_inDateOrder.
  destruct (last_error healed) as [t|] eqn:Hlast.
  - left. exists t.
    assert (Ht : In t (filter (ofAccount accountId)
                         (healTransactionChain txs accountId accs).(healedTxs))).
    { rewrite Hown. now apply last_error_In. }
    apply filter_In in Ht. destruct Ht as [Ht Hof]. apply String.eqb_eq in Hof.
    repeat split; [exact Ht | exact Hof |].
    intros u Hu Hacc. apply (@inDateOrder_last _ _ healed t Hvalid Hordered Hlast).
    rewrite <- Hown. apply filter_In. split; [exact Hu|].
    unfold ofAccount. rewrite Hacc. apply String.eqb_refl.
  - right. split; [|reflexivity].
    apply last_error_None in Hlast. intros u Hu Hacc.
    assert (Hin : In u (filter (ofAccount accountId)
                          (healTransactionChain txs accountId accs).(healedTxs))).
    { apply filter_In. split; [exact Hu|].
      unfold ofAccount. rewrite Hacc. apply String.eqb_refl. }
    rewrite Hown, Hlast in Hin. contradiction.
Qed.

(** The balance that the healer gives an account is that of a latest
    transaction.  When the runtime parses the dates of the account's
    transactions, after a heal every account with the healed id has the
    [currentBalance] of a transaction of the account in the healed ledger
    that no transaction of the account is later than, or the initial capital
    when the account has no transaction. *)
Theorem heal_balance_is_latest :
  forall (N : JSNumber) (D : JSDate) (allTransactions : list Transaction.t)
         (accountId : string) (allAccounts : list Account.t) (account : Account.t),
    find (fun a => (a.(Account.id) =? accountId)%string) allAccounts = Some account ->
    datesParse accountId allTransactions ->
    let r := healTransactionChain allTransactions accountId allAccounts in
    forall a, In a r.(updatedAccounts) -> a.(Account.id) = accountId ->
      latestBalance accountId r.(healedTxs) account.(Account.initialCapital)
        a.(Account.currentBalance).
Proof.
  intros N D txs accountId accs account Hfind Hdates r. subst r.
  now apply healed_balance_latest.
Qed.

(** In the example ledger, healed, the first account has February's balance. *)
Lemma heal_balance_is_latest_ledger :
  let r := healTransactionChain (D := IsoDate) Ledger.transactions "1"
             Ledger.accounts in
  latestBalance (D := IsoDate) "1" r.(healedTxs)
    Ledger.kuveyt.(Account.initialCapital)
    (Account.with_currentBalance Ledger.kuveyt 1250%float).(Account.currentBalance).
Proof.
  intros r.
  apply (@heal_balance_is_latest Float64 IsoDate Ledger.transactions "1"
           Ledger.accounts Ledger.kuveyt eq_refl ledger_datesParse
           (Account.with_currentBalance Ledger.kuveyt 1250%float)).
  - vm_compute. left. reflexivity.
  - reflexivity.
Defined.

(** The healing handlers (the App component of
    src/components/TransactionModal.tsx).  After a transaction is saved,
    new or edited, every account with the transaction's account id has the
    balance of a latest transaction of the account in the new state, or the
    initial capital when the account has no transaction; one account has
    that id, and the runtime parses the dates of the account's transactions
    and of the saved one. *)
Theorem handleSaveTransaction_balance :
  forall (N : JSNumber) (D : JSDate) (st : App.State) (tx : Transaction.t)
         (account : Account.t),
    find (fun a => (a.(Account.id) =? tx.(Transaction.accountId))%string)
         st.(App.accounts) = Some account ->
    datesParse tx.(Transaction.accountId) st.(App.transactions) ->
    dateTime tx.(Transaction.date) <> None ->
    let st' := App.handleSaveTransaction st tx in
    forall a, In a st'.(App.accounts) ->
      a.(Account.id) = tx.(Transaction.accountId) ->
      latestBalance tx.(Transaction.accountId) st'.(App.transactions)
        account.(Account.initialCapital) a.(Account.currentBalance).
Proof.
  intros N D st tx account Hfind Hdates Htx st' a Hin Hid. subst st'.
  unfold App.handleSaveTransaction in *. cbn [App.accounts App.transactions] in *.
  apply (@healed_balance_latest N D _ _ _ account Hfind); [|exact Hin | exact Hid].
  destruct st.(App.editingTransaction).
  - now apply datesParse_replace.
  - now apply datesParse_append.
Qed.

(** The same after the deletion of a transaction, for the accounts with the
    deleted transaction's account id. *)
Theorem confirmDeleteTransaction_balance :
  forall (N : JSNumber) (D : JSDate) (st : App.State) (deleted : Transaction.t)
         (account : Account.t),
    st.(App.txToDelete) = Some deleted ->
    find (fun a => (a.(Account.id) =? deleted.(Transaction.accountId))%string)
         st.(App.accounts) = Some account ->
    datesParse deleted.(Transaction.accountId) st.(App.transactions) ->
    let st' := App.confirmDeleteTransaction st in
    forall a, In a st'.(App.accounts) ->
      a.(Account.id) = deleted.(Transaction.accountId) ->
      latestBalance deleted.(Transaction.accountId) st'.(App.transactions)
        account.(Account.initialCapital) a.(Account.currentBalance).
Proof.
  intros N D st deleted account Hdel Hfind Hdates st' a Hin Hid. subst st'.
  unfold App.confirmDeleteTransaction in *. rewrite Hdel in *.
  cbn [App.accounts App.transactions] in *.
  apply (@healed_balance_latest N D _ _ _ account Hfind); [|exact Hin | exact Hid].
  now apply datesParse_filter.
Qed.

(** C8 on src/App.tsx.  With a February statement (balance 1250) on record,
    a January statement of balance 1100 is entered in the modal and added:
    [handleAddTransaction] gives the account the new transaction's balance,
    1100, while the latest transaction of the account by date is still
    February's, with 1250. *)
Lemma handleAddTransaction_backdated :
  let newTx := AppTsx.handleSave Ledger.kuveyt 1100%float 0%float 0%float
                 "2024-01-01" "t-jan" in
  let st' := AppTsx.handleAddTransaction Scenario.legacy newTx in
  newTx = Ledger.january
  /\ map (fun a => (a.(Account.id), a.(Account.currentBalance))) st'.(AppTsx.accounts)
     = [("1", 1100%float); ("2", 12500%float)]
  /\ chainBalance (D := IsoDate) "1" st'.(AppTsx.transactions)
       Ledger.kuveyt.(Account.initialCapital) = 1250%float.
Proof. vm_compute. repeat split. Qed.

(** The same entry through the healing handler: the chain is rebuilt and the
    account keeps February's balance. *)
Lemma handleSaveTransaction_balance_ledger :
  let st' := App.handleSaveTransaction (D := IsoDate) Scenario.healing Ledger.january in
  latestBalance (D := IsoDate) "1" st'.(App.transactions)
    Ledger.kuveyt.(Account.initialCapital)
    (Account.with_currentBalance Ledger.kuveyt 1250%float).(Account.currentBalance).
Proof.
  intros st'.
  apply (@handleSaveTransaction_balance Float64 IsoDate Scenario.healing
           Ledger.january Ledger.kuveyt eq_refl).
  - intros t [<- | [<- | []]] _; vm_compute; discriminate.
  - vm_compute. discriminate.
  - vm_compute. left. reflexivity.
  - reflexivity.
Defined.

(** Deleting the February statement, the only one of the account: the
    balance falls back to the initial capital. *)
Lemma confirmDeleteTransaction_balance_ledger :
  let st' := App.confirmDeleteTransaction (D := IsoDate) Scenario.healing in
  latestBalance (D := IsoDate) "1" st'.(App.transactions)
    Ledger.kuveyt.(Account.initialCapital)
    (Account.with_currentBalance Ledger.kuveyt 1000%float).(Account.currentBalance).
Proof.
  intros st'.
  apply (@confirmDeleteTransaction_balance Float64 IsoDate Scenario.healing
           Ledger.february Ledger.kuveyt eq_refl eq_refl).
  - intros t [<- | [<- | []]] _; vm_compute; discriminate.
  - vm_compute. left. reflexivity.
  - reflexivity.
Defined.

Example confirmDeleteTransaction_ledger_values :
  let st' := App.confirmDeleteTransaction (D := IsoDate) Scenario.healing in
  map (fun a => (a.(Account.id), a.(Account.currentBalance))) st'.(App.accounts)
  = [("1", 1000%float); ("2", 12500%float)]
  /\ map Transaction.id st'.(App.transactions) = ["t-usd"].
Proof. vm_compute. split; reflexivity. Qed.

(** An import that repeats a stored id: the stored record stays, the
    repeated one and the one without id are dropped, the new one is added. *)
Example handleImport_ledger :
  let imported :=
    [Account.with_currentBalance Ledger.kuveyt 1%float;
     Account.Build (N := Float64) "" "No Id" Currency.TRY InvestmentType.GOLD
       "2024-01-01" 1%float "Low" 1%float 1%float;
     Account.Build (N := Float64) "3" "Vakif" Currency.TRY InvestmentType.GOLD
       "2024-01-01" 1%float "Low" 1%float 1%float] in
  let st' := App.handleImport Scenario.healing imported [Ledger.february; Ledger.january] in
  map Account.id st'.(App.accounts) = ["1"; "2"; "3"]
  /\ nth_error st'.(App.accounts) 0 = Some Ledger.kuveyt
  /\ map Transaction.id st'.(App.transactions) = ["t-feb"; "t-usd"; "t-jan"]
  /\ App.handleImport Scenario.healing [] [Ledger.january] = Scenario.healing.
Proof. vm_compute. repeat split. Qed.

(** ** The import parser *)

(** C9 on [parseImportCSV].  The account row with currency EUR and type
    Bitcoin is imported with currency TRY, and with the investment type
    Bitcoin: only an empty type field becomes PARTICIPATION.  The rows of
    seven and of eight fields give no record. *)
Lemma parseImportCSV_keeps_unknown_type :
  forall (N : JSNumber) (R : JSRuntime),
    let r := parseImportCSV CsvSample.document in
    map (fun a => (a.(Account.id), a.(Account.currency), a.(Account.investmentType)))
        (fst r)
    = [("a1", Currency.TRY, "Bitcoin")]
    /\ snd r = [].
Proof. intros N R. vm_compute. split; reflexivity. Qed.

Section ParseLineFacts.
Context {N : JSNumber} {R : JSRuntime}.

(** A line that is not a row of enough fields for the current section adds
    no record. *)
Lemma parseLine_short_row (st : ParseState) (line : string) :
  (st.(currentSection) = ACCOUNTS -> (List.length (cleanPartsOf line) < 8)%nat) ->
  (st.(currentSection) = TRANSACTIONS -> (List.length (cleanPartsOf line) < 9)%nat) ->
  (parseLine st line).(accounts) = st.(accounts)
  /\ (parseLine st line).(transactions) = st.(transactions).
Proof.
  intros HA HT. unfold parseLine.
  destruct (Str.includes _ "---ACCOUNTS---"); [split; reflexivity|].
  destruct (Str.includes _ "---TRANSACTIONS---"); [split; reflexivity|].
  destruct (Str.startsWith _ "id,"); [split; reflexivity|].
  destruct (currentSection st) eqn:E.
  - split; reflexivity.
  - specialize (HA eq_refl). apply Nat.leb_gt in HA. rewrite HA. split; reflexivity.
  - specialize (HT eq_refl). apply Nat.leb_gt in HT. rewrite HT. split; reflexivity.
Qed.

(** A data row of the accounts section with eight fields or more adds one
    account, whatever its currency and type fields hold: the currency is the
    field when that is TRY or USD and TRY otherwise, the investment type is
    the field when that is not empty and PARTICIPATION otherwise. *)
Lemma parseLine_account_row (st : ParseState) (line : string) :
  Str.includes (Str.toUpperCase line) "---ACCOUNTS---" = false ->
  Str.includes (Str.toUpperCase line) "---TRANSACTIONS---" = false ->
  Str.startsWith (Str.toLowerCase line) "id," = false ->
  st.(currentSection) = ACCOUNTS ->
  (8 <= List.length (cleanPartsOf line))%nat ->
  exists a,
    (parseLine st line).(accounts) = st.(accounts) ++ [a]
    /\ (parseLine st line).(transactions) = st.(transactions)
    /\ a.(Account.currency)
       = (let field := nth 2 (cleanPartsOf line) EmptyString in
          if existsb (String.eqb field) [Currency.TRY; Currency.USD]
          then field else Currency.TRY)
    /\ a.(Account.investmentType)
       = (let field := nth 3 (cleanPartsOf line) EmptyString in
          if (field =? "")%string then InvestmentType.PARTICIPATION else field).
Proof.
  intros H1 H2 H3 HS Hlen. unfold parseLine. rewrite H1, H2, H3, HS.
  apply Nat.leb_le in Hlen. rewrite Hlen.
  destruct (idOr (cleanPartsOf line) st) as [id drawn].
  eexists. cbn [accounts transactions]. split; [reflexivity|].
  split; [reflexivity|]. split; [reflexivity|].
  cbn [parseAccount Account.investmentType]. unfold partOr, str_truthy.
  apply Nat.leb_le in Hlen.
  destruct (nth_error (cleanPartsOf line) 3) as [s|] eqn:E.
  - rewrite (nth_error_nth _ _ _ E). now destruct (s =? "")%string.
  - apply nth_error_None in E. lia.
Qed.
End ParseLineFacts.

Lemma parseLine_short_row_sample :
  let st := {| currentSection := ACCOUNTS; accounts := []; transactions := [];
               idsDrawn := 0 |} in
  let line := "a2,Vakif Katilim,USD,Gold Account,2024-01-01,12,Low" in
  (parseLine (R := SampleRuntime) st line).(accounts) = []
  /\ (parseLine (R := SampleRuntime) st line).(transactions) = [].
Proof.
  intros st line.
  apply (@parseLine_short_row Exact SampleRuntime st line).
  - intros _. vm_compute. lia.
  - intros H. discriminate H.
Defined.

Lemma parseLine_account_row_sample :
  let st := {| currentSection := ACCOUNTS; accounts := []; transactions := [];
               idsDrawn := 0 |} in
  let line := "a1,Ziraat Katilim,EUR,,2024-01-01,12,Low,1000" in
  exists a,
    (parseLine (R := SampleRuntime) st line).(accounts) = [a]
    /\ (parseLine (R := SampleRuntime) st line).(transactions) = []
    /\ a.(Account.currency) = Currency.TRY
    /\ a.(Account.investmentType) = InvestmentType.PARTICIPATION.
Proof.
  intros st line.
  apply (@parseLine_account_row Exact SampleRuntime st line); try reflexivity.
Defined.

(** ** The cascading edit of the specification

    An account of initial capital 1000 with a statement of 1 January
    (balance 1100) and one of 1 February (balance 1250, deposit 100).  The
    January balance is edited to 1050: February then stands on 1050 with a
    profit of 1250 - 1050 - 100 = 100, its own inputs untouched, and the
    account still has February's balance. *)
Example cascading_edit :
  let jan := Transaction.Build (N := Float64) "t-jan" "1" "2024-01-01" 1000%float
               1100%float 0%float 0%float 100%float 10%float
               TransactionType.BANK_PROFIT in
  let feb := Transaction.Build (N := Float64) "t-feb" "1" "2024-02-01" 1100%float
               1250%float 100%float 0%float 50%float (50 / 1100 * 100)%float
               TransactionType.MIXED in
  let edited := Transaction.Build (N := Float64) "t-jan" "1" "2024-01-01" 1000%float
               1050%float 0%float 0%float 50%float 5%float
               TransactionType.BANK_PROFIT in
  let st := {| App.accounts := [Ledger.kuveyt];
               App.transactions := [jan; feb];
               App.editingTransaction := Some jan;
               App.txToDelete := None;
               App.isTxModalOpen := true |} in
  let st' := App.handleSaveTransaction (D := IsoDate) st edited in
  map (fun t => (t.(Transaction.id), t.(Transaction.previousBalance),
                 t.(Transaction.currentBalance), t.(Transaction.userDeposit),
                 t.(Transaction.calculatedProfit)))
      st'.(App.transactions)
  = [("t-jan", 1000%float, 1050%float, 0%float, 50%float);
     ("t-feb", 1050%float, 1250%float, 100%float, 100%float)]
  /\ map Account.currentBalance st'.(App.accounts) = [1250%float].
Proof. vm_compute. split; reflexivity. Qed.

(** * Further properties *)

(** ** Healing keeps the records *)

Lemma filter_split_perm {A : Type} (f : A -> bool) (l : list A) :
  Permutation (filter (fun x => negb (f x)) l ++ filter f l) l.
Proof.
  induction l as [|x l IH]; simpl; [constructor|].
  destruct (f x); simpl.
  - apply Permutation_sym, Permutation_cons_app, Permutation_sym, IH.
  - now apply perm_skip.
Qed.

(** Healing drops no transaction, adds none and touches no field that the
    caller supplied: the healed list holds the records of the input, each
    with its id, account id, date, balance, deposit and withdrawal, in some
    order.  The account list keeps its length and, place by place, its ids. *)
Theorem heal_keeps_records :
  forall (N : JSNumber) (D : JSDate) (allTransactions : list Transaction.t)
         (accountId : string) (allAccounts : list Account.t),
    let r := healTransactionChain allTransactions accountId allAccounts in
    Permutation (map inputsOf r.(healedTxs)) (map inputsOf allTransactions)
    /\ map Account.id r.(updatedAccounts) = map Account.id allAccounts.
Proof.
  intros N D txs accountId accs r. subst r.
  destruct (find (fun a => (a.(Account.id) =? accountId)%string) accs)
    as [account|] eqn:Hfind.
  - erewrite heal_found by eassumption. cbn [healedTxs updatedAccounts]. split.
    + rewrite map_app, healChain_inputs, <- map_app. apply Permutation_map.
      eapply perm_trans; [|apply (filter_split_perm (ofAccount accountId))].
      apply Permutation_app_head. unfold chainOf. apply Array_sort_perm.
    + rewrite map_map. apply map_ext. intros a.
      now destruct (a.(Account.id) =? accountId)%string.
  - unfold healTransactionChain. rewrite Hfind. split; reflexivity.
Qed.

(** ** The consistency of the ledger is kept by the handlers *)

Section Consistency.
Context {N : JSNumber} {D : JSDate}.

Lemma filter_other_account (accountId other : string) (l : list Transaction.t) :
  other <> accountId ->
  filter (ofAccount other) (filter (fun t => negb (ofAccount accountId t)) l)
  = filter (ofAccount other) l.
Proof.
  intros Hneq. induction l as [|t l IH]; simpl; [reflexivity|].
  unfold ofAccount in *.
  destruct (t.(Transaction.accountId) =? accountId)%string eqn:E; simpl.
  - destruct (t.(Transaction.accountId) =? other)%string eqn:E'; [|exact IH].
    apply String.eqb_eq in E, E'. congruence.
  - now rewrite IH.
Qed.


Lemma chainOf_same_filter (accountId : string) (l l' : list Transaction.t) :
  filter (ofAccount accountId) l = filter (ofAccount accountId) l' ->
  chainOf accountId l = chainOf accountId l'.
Proof. unfold chainOf. now intros ->. Qed.

Lemma chainBalance_same_filter (accountId : string) (l l' : list Transaction.t)
    (c : num) :
  filter (ofAccount accountId) l = filter (ofAccount accountId) l' ->
  chainBalance accountId l c = chainBalance accountId l' c.
Proof. unfold chainBalance, chainOf. now intros ->. Qed.

Lemma find_id_In (accs : list Account.t) (accountId : string) (account : Account.t) :
  find (fun a => (a.(Account.id) =? accountId)%string) accs = Some account ->
  In account accs /\ account.(Account.id) = accountId.
Proof.
  intros H. apply find_some in H. destruct H as [H1 H2].
  now apply String.eqb_eq in H2.
Qed.


(** A ledger linked by date is consistent: its chains are sorted as they
    stand. *)
Lemma linkedByDate_consistent (accs : list Account.t) (txs : list Transaction.t) :
  linkedByDate accs txs -> consistent accs txs.
Proof.
  intros Hlinked accountId account Hfind.
  destruct (Hlinked accountId account Hfind) as (Horder & Hchain & Hbal).
  assert (Hsorted : chainOf accountId txs = filter (ofAccount accountId) txs).
  { unfold chainOf. apply Array_sort_ascending_id. now apply inDateOrder_ascending. }
  unfold chainBalance. rewrite Hsorted. split; assumption.
Qed.
End Consistency.

Section HandlersConsistency.
Context {N : JSNumber} {D : JSDate}.

Lemma filter_append_other (other : string) (txs : list Transaction.t)
    (tx : Transaction.t) :
  other <> tx.(Transaction.accountId) ->
  filter (ofAccount other) (txs ++ [tx]) = filter (ofAccount other) txs.
Proof.
  intros Hneq. rewrite filter_app. simpl. unfold ofAccount at 2.
  destruct (tx.(Transaction.accountId) =? other)%string eqn:E.
  - apply String.eqb_eq in E. congruence.
  - apply app_nil_r.
Qed.


End HandlersConsistency.

(** The ledger of [Opening.recorded] is consistent. *)
Lemma recorded_consistent :
  consistent (D := IsoDate) Opening.recorded.(App.accounts)
    Opening.recorded.(App.transactions).
Proof.
  intros id account Hfind.
  destruct (String.eqb_spec "3" id) as [<- | Hne].
  - injection Hfind as <-. split; [vm_compute; reflexivity|].
    intros a [<- | []] _. vm_compute. reflexivity.
  - apply String.eqb_neq in Hne. unfold Opening.recorded in Hfind.
    cbn [App.accounts find Account.id Account.with_currentBalance Opening.vakif]
      in Hfind.
    rewrite Hne in Hfind. discriminate Hfind.
Qed.

Lemma opened_consistent :
  consistent (D := IsoDate) Opening.opened.(App.accounts)
    Opening.opened.(App.transactions).
Proof.
  intros id account Hfind.
  destruct (String.eqb_spec "3" id) as [<- | Hne].
  - injection Hfind as <-. split; [reflexivity|].
    intros a [<- | []] _. reflexivity.
  - apply String.eqb_neq in Hne. unfold Opening.opened in Hfind.
    cbn [App.accounts find Account.id Opening.vakif] in Hfind.
    rewrite Hne in Hfind. discriminate Hfind.
Qed.

Lemma opened_linked :
  linkedByDate (D := IsoDate) Opening.opened.(App.accounts)
    Opening.opened.(App.transactions).
Proof.
  intros id account Hfind.
  destruct (String.eqb_spec "3" id) as [<- | Hne].
  - injection Hfind as <-. repeat split.
    intros a [<- | []] _. reflexivity.
  - apply String.eqb_neq in Hne. unfold Opening.opened in Hfind.
    cbn [App.accounts find Account.id Opening.vakif] in Hfind.
    rewrite Hne in Hfind. discriminate Hfind.
Qed.




Example handleSaveTransaction_linked_values :
  let backdated := Transaction.Build (N := Float64) "t-0" "3" "2024-03-15"
                     0%float 540%float 0%float 0%float 0%float 0%float
                     TransactionType.BANK_PROFIT in
  let st' := App.handleSaveTransaction (D := IsoDate) Opening.recorded backdated in
  map (fun t => (t.(Transaction.id), t.(Transaction.previousBalance),
                 t.(Transaction.currentBalance))) st'.(App.transactions)
  = [("t-0", 500%float, 540%float); ("t-1", 540%float, 620%float)]
  /\ map Account.currentBalance st'.(App.accounts) = [620%float].
Proof. vm_compute. split; reflexivity. Qed.



Section AccountHandlers.
Context {N : JSNumber} {D : JSDate}.

Lemma find_filter_other (accs : list Account.t) (removed other : string) :
  other <> removed ->
  find (fun a => (a.(Account.id) =? other)%string)
       (filter (fun a => negb (a.(Account.id) =? removed)%string) accs)
  = find (fun a => (a.(Account.id) =? other)%string) accs.
Proof.
  intros Hneq. induction accs as [|a accs IH]; simpl; [reflexivity|].
  destruct (a.(Account.id) =? removed)%string eqn:E; simpl.
  - destruct (a.(Account.id) =? other)%string eqn:E'; [|exact IH].
    apply String.eqb_eq in E, E'. congruence.
  - now rewrite IH.
Qed.

Lemma filter_none_of_account (accountId : string) (txs : list Transaction.t) :
  (forall t, In t txs -> t.(Transaction.accountId) <> accountId) ->
  filter (ofAccount accountId) txs = [].
Proof.
  intros H. induction txs as [|t txs IH]; simpl; [reflexivity|].
  unfold ofAccount at 1.
  destruct (t.(Transaction.accountId) =? accountId)%string eqn:E.
  - apply String.eqb_eq in E. now apply H in E; [|left].
  - apply IH. intros u Hu. apply H. now right.
Qed.

Lemma find_app_accounts (accs more : list Account.t) (accountId : string) :
  find (fun a => (a.(Account.id) =? accountId)%string) (accs ++ more)
  = match find (fun a => (a.(Account.id) =? accountId)%string) accs with
    | Some a => Some a
    | None => find (fun a => (a.(Account.id) =? accountId)%string) more
    end.
Proof.
  induction accs as [|a accs IH]; simpl; [reflexivity|].
  now destruct (a.(Account.id) =? accountId)%string.
Qed.
End AccountHandlers.

(** Deleting an account cascades: afterwards no account has the deleted id
    and no transaction refers to it; a consistent ledger stays consistent;
    and if every transaction referred to an account before, every remaining
    one still does (the deletion leaves no orphan). *)
Theorem confirmDeleteAccount_cascade :
  forall (N : JSNumber) (D : JSDate) (st : App.State) (account : Account.t),
    let st' := fst (AppAccount.confirmDeleteAccount st (Some account)) in
    (forall a, In a st'.(App.accounts) -> a.(Account.id) <> account.(Account.id))
    /\ (forall t, In t st'.(App.transactions) ->
          t.(Transaction.accountId) <> account.(Account.id))
    /\ (consistent st.(App.accounts) st.(App.transactions) ->
        consistent st'.(App.accounts) st'.(App.transactions))
    /\ ((forall t, In t st.(App.transactions) ->
           exists a, In a st.(App.accounts)
                     /\ a.(Account.id) = t.(Transaction.accountId)) ->
        forall t, In t st'.(App.transactions) ->
          exists a, In a st'.(App.accounts)
                    /\ a.(Account.id) = t.(Transaction.accountId)).
Proof.
  intros N D st account st'. subst st'. cbn [AppAccount.confirmDeleteAccount fst
    App.accounts App.transactions].
  split; [|split; [|split]].
  - intros a Ha. apply filter_In in Ha. destruct Ha as [_ Ha].
    apply negb_true_iff in Ha. now apply String.eqb_neq.
  - intros t Ht. apply filter_In in Ht. destruct Ht as [_ Ht].
    apply negb_true_iff in Ht. now apply String.eqb_neq.
  - intros Hcons id' account' Hfind.
    assert (Hneq : id' <> account.(Account.id)).
    { destruct (find_id_In _ _ Hfind) as [Hin Hid].
      apply filter_In in Hin. destruct Hin as [_ Hin].
      apply negb_true_iff, String.eqb_neq in Hin. congruence. }
    rewrite find_filter_other in Hfind by assumption.
    destruct (Hcons id' account' Hfind) as [Hchain Hbal].
    assert (Hfilter :
      filter (ofAccount id')
        (filter (fun tx => negb (tx.(Transaction.accountId)
                                 =? account.(Account.id))%string)
                st.(App.transactions))
      = filter (ofAccount id') st.(App.transactions))
      by (apply (filter_other_account (accountId := account.(Account.id)));
          assumption).
    rewrite (chainOf_same_filter _ _ _ Hfilter).
    rewrite (chainBalance_same_filter _ _ _ _ Hfilter).
    split; [exact Hchain|].
    intros a Ha Hid. apply Hbal; [|exact Hid].
    apply filter_In in Ha. tauto.
  - intros Hall t Ht. apply filter_In in Ht. destruct Ht as [Ht Hneq].
    destruct (Hall t Ht) as [a [Ha Hid]]. exists a. split; [|exact Hid].
    apply filter_In. split; [exact Ha|]. now rewrite Hid.
Qed.

Lemma confirmDeleteAccount_cascade_opening :
  let st' := fst (AppAccount.confirmDeleteAccount Opening.recorded
                    (Some Opening.vakif)) in
  consistent (D := IsoDate) st'.(App.accounts) st'.(App.transactions).
Proof.
  apply (proj1 (proj2 (proj2
           (@confirmDeleteAccount_cascade Float64 IsoDate Opening.recorded
              Opening.vakif)))).
  exact recorded_consistent.
Defined.

(** An account made by the modal and saved keeps the ledger consistent when
    its id is new: no account has it and no transaction refers to it.  The
    modal gives the account its initial capital as balance. *)
Theorem handleSaveAccount_consistent :
  forall (N : JSNumber) (D : JSDate) (st : App.State) (form : AccountModal.Form)
         (id : string) (newAcc : Account.t),
    AccountModal.handleSave form id = Some newAcc ->
    (forall a, In a st.(App.accounts) -> a.(Account.id) <> id) ->
    (forall t, In t st.(App.transactions) -> t.(Transaction.accountId) <> id) ->
    consistent st.(App.accounts) st.(App.transactions) ->
    let st' := AppAccount.handleSaveAccount st newAcc in
    consistent st'.(App.accounts) st'.(App.transactions).
Proof.
  intros N D st form id newAcc Hsave Hfresh Hnotx Hcons st'. subst st'.
  cbn [AppAccount.handleSaveAccount App.accounts App.transactions].
  unfold AccountModal.handleSave in Hsave.
  destruct (negb (str_truthy (Str.trim form.(AccountModal.bankName))));
    [discriminate|].
  injection Hsave as <-.
  intros id' account' Hfind. rewrite find_app_accounts in Hfind.
  destruct (find (fun a => (a.(Account.id) =? id')%string) st.(App.accounts))
    as [account0|] eqn:Hfind0.
  - injection Hfind as <-.
    destruct (Hcons id' account0 Hfind0) as [Hchain Hbal].
    split; [exact Hchain|].
    intros a Ha Hid. apply in_app_or in Ha. destruct Ha as [Ha | [<- | []]].
    + now apply Hbal.
    + cbn in Hid. destruct (find_id_In _ _ Hfind0) as [Hin0 Hid0].
      exfalso. apply (Hfresh account0 Hin0). congruence.
  - cbn in Hfind.
    destruct (id =? id')%string eqn:E; [|discriminate].
    apply String.eqb_eq in E. subst id'. injection Hfind as <-.
    unfold chainBalance, chainOf.
    rewrite (filter_none_of_account _ Hnotx). cbn. split; [reflexivity|].
    intros a Ha Hid. apply in_app_or in Ha. destruct Ha as [Ha | [<- | []]].
    + exfalso. now apply (Hfresh a Ha).
    + reflexivity.
Qed.

Lemma handleSaveAccount_consistent_opening :
  let form := @AccountModal.Build_Form Float64 "Ziraat Katilim" Currency.TRY
                InvestmentType.PARTICIPATION "2024-05-01" 12%float 10000%float
                "Low" in
  let newAcc := Account.Build (N := Float64) "4" "Ziraat Katilim" Currency.TRY
                  InvestmentType.PARTICIPATION "2024-05-01" 12%float "Low"
                  10000%float 10000%float in
  let st' := AppAccount.handleSaveAccount Opening.recorded newAcc in
  consistent (D := IsoDate) st'.(App.accounts) st'.(App.transactions).
Proof.
  intros form newAcc.
  apply (@handleSaveAccount_consistent Float64 IsoDate Opening.recorded form "4"
           newAcc).
  - reflexivity.
  - intros a [<- | []]. discriminate.
  - intros t [<- | []]. discriminate.
  - exact recorded_consistent.
Defined.

(** ** The profit of an account card, over a healed chain *)

Section CardProfit.
Context {D : JSDate}.

Lemma exact_or_zero (x : Qc) : @num_or Exact x (Q2Qc 0) = x.
Proof.
  unfold num_or. destruct (exact_capital_is_number x) as [H | H].
  - now rewrite H.
  - rewrite H. now destruct (@num_truthy Exact (@num0 Exact)).
Qed.

Lemma total_perm (field : Transaction.t (N := Exact) -> Qc)
    (l l' : list (Transaction.t (N := Exact))) :
  Permutation l l' -> total field l = total field l'.
Proof.
  induction 1 as [| x l l' _ IH | x y l | l l' l'' _ IH1 _ IH2]; simpl.
  - reflexivity.
  - now rewrite IH.
  - ring.
  - now rewrite IH1.
Qed.

Lemma healChain_last (l : list (Transaction.t (N := Exact))) :
  forall r, option_map Transaction.currentBalance (last_error (healChain r l))
            = option_map Transaction.currentBalance (last_error l).
Proof.
  induction l as [|tx l IH]; intros r; simpl; [reflexivity|].
  destruct l as [|tx' l']; [reflexivity|]. exact (IH _).
Qed.

Lemma endBalance_cons (r : Qc) (t : Transaction.t (N := Exact))
    (l : list (Transaction.t (N := Exact))) :
  endBalance r (t :: l) = endBalance t.(Transaction.currentBalance) l.
Proof.
  unfold endBalance. destruct l as [|t0 l]; [reflexivity|].
  change (last_error (t :: t0 :: l)) with (last_error (t0 :: l)).
  destruct (last_error (t0 :: l)) eqn:E; [reflexivity|].
  apply last_error_None in E. discriminate E.
Qed.

Lemma telescope_step (acc c r d w e td tw : Qc) :
  (acc + (c - r - (d - w)) + (e - c - td + tw)
   = acc + (e - r - (d + td) + (w + tw)))%Qc.
Proof. ring. Qed.

Lemma telescope_start (x : Qc) : (Q2Qc 0 + x = x)%Qc.
Proof. ring. Qed.

Lemma telescope_base (acc r : Qc) :
  (acc = acc + (r - r - Q2Qc 0 + Q2Qc 0))%Qc.
Proof. ring. Qed.

Lemma healChain_profit_sum (l : list (Transaction.t (N := Exact))) :
  forall (r acc : Qc),
    fold_left (fun s t => (s + num_or t.(Transaction.calculatedProfit) num0)%num)
      (healChain r l) acc
    = (acc + (endBalance r l - r - total Transaction.userDeposit l
              + total Transaction.withdrawal l))%Qc.
Proof.
  induction l as [|t l IH]; intros r acc.
  - apply telescope_base.
  - cbn [healChain fold_left]. rewrite IH. rewrite endBalance_cons.
    cbn [healTx Transaction.calculatedProfit Transaction.currentBalance
         calculateProfitStats profitAmount total fold_right].
    change (@num0 Exact) with (Q2Qc 0). rewrite exact_or_zero.
    apply telescope_step.
Qed.
End CardProfit.

(** In exact arithmetic the profits of a healed chain telescope: after a
    heal, the profit shown on the card of the healed account is its balance,
    less its initial capital, less the deposits of its transactions, plus
    their withdrawals. *)
Theorem accProfit_of_healed_account :
  forall (D : JSDate) (allTransactions : list (Transaction.t (N := Exact)))
         (accountId : string) (allAccounts : list Account.t)
         (account card : Account.t),
    find (fun a => (a.(Account.id) =? accountId)%string) allAccounts = Some account ->
    In card (healTransactionChain allTransactions accountId allAccounts).(updatedAccounts) ->
    card.(Account.id) = accountId ->
    let r := healTransactionChain allTransactions accountId allAccounts in
    let own := filter (ofAccount accountId) allTransactions in
    AppAccount.accProfit card r.(healedTxs)
    = (card.(Account.currentBalance) - account.(Account.initialCapital)
       - total Transaction.userDeposit own + total Transaction.withdrawal own)%Qc.
Proof.
  intros D txs accountId accs account card Hfind Hcard Hid r own. subst r own.
  rewrite (@heal_balance Exact D txs accountId accs account Hfind card Hcard Hid).
  unfold chainBalance. erewrite chainOf_healed by eassumption.
  erewrite heal_found by eassumption. cbn [healedTxs].
  unfold AppAccount.accProfit. rewrite Hid.
  change (fun t : Transaction.t => (t.(Transaction.accountId) =? accountId)%string)
    with (ofAccount (N := Exact) accountId).
  rewrite filter_healed_chain, healChain_profit_sum.
  change (@num0 Exact) with (Q2Qc 0). rewrite exact_or_zero.
  assert (Hend :
    match last_error (healChain account.(Account.initialCapital)
                        (chainOf accountId txs)) with
    | Some tx => tx.(Transaction.currentBalance)
    | None => account.(Account.initialCapital)
    end = endBalance account.(Account.initialCapital) (chainOf accountId txs)).
  { unfold endBalance.
    pose proof (healChain_last (chainOf accountId txs)
                  account.(Account.initialCapital)) as H.
    destruct (last_error (healChain _ _)), (last_error (chainOf accountId txs));
      cbn in H; congruence. }
  rewrite Hend.
  assert (Hperm : Permutation (chainOf accountId txs)
                              (filter (ofAccount accountId) txs))
    by apply Array_sort_perm.
  rewrite (total_perm Transaction.userDeposit Hperm).
  rewrite (total_perm Transaction.withdrawal Hperm).
  apply telescope_start.
Qed.

(** The example in exact numbers: the card shows 1250 - 1000 - 100 + 0. *)
Lemma accProfit_of_healed_account_ledger :
  let r := healTransactionChain (D := IsoDate)
             [ExactLedger.february; ExactLedger.january] "1" [ExactLedger.kuveyt] in
  let own := filter (ofAccount "1") [ExactLedger.february; ExactLedger.january] in
  AppAccount.accProfit ExactLedger.kuveyt r.(healedTxs)
  = (Q2Qc 1250 - Q2Qc 1000 - total Transaction.userDeposit own
     + total Transaction.withdrawal own)%Qc.
Proof.
  apply (@accProfit_of_healed_account IsoDate
           [ExactLedger.february; ExactLedger.january] "1" [ExactLedger.kuveyt]
           ExactLedger.kuveyt ExactLedger.kuveyt).
  - reflexivity.
  - left. reflexivity.
  - reflexivity.
Defined.

(** ** What every imported record satisfies *)

Section ParsedRecords.
Context {N : JSNumber} {R : JSRuntime}.

Lemma partOr_nonempty (cleanParts : list string) (i : nat) (dflt : string) :
  dflt <> "" -> partOr cleanParts i dflt <> "".
Proof.
  intros Hd. unfold partOr. destruct (nth_error cleanParts i) as [s|]; [|exact Hd].
  destruct (str_truthy s) eqn:E; [|exact Hd]. now apply str_truthy_iff.
Qed.

Lemma parseAccount_ok (cleanParts : list string) (id : string) :
  importedAccountOk (parseAccount cleanParts id).
Proof.
  unfold importedAccountOk, parseAccount.
  cbn [Account.currency Account.bankName Account.investmentType Account.riskLevel].
  repeat split; try (apply partOr_nonempty; discriminate).
  destruct (existsb _ Currency.values) eqn:E.
  - apply existsb_exists in E. destruct E as [c [Hc E]].
    apply String.eqb_eq in E. now subst.
  - now left.
Qed.

Lemma parseLine_accounts_ok (st : ParseState) (line : string) :
  Forall importedAccountOk st.(accounts) ->
  Forall importedAccountOk (parseLine st line).(accounts).
Proof.
  intros H. unfold parseLine.
  destruct (Str.includes _ "---ACCOUNTS---"); [exact H|].
  destruct (Str.includes _ "---TRANSACTIONS---"); [exact H|].
  destruct (Str.startsWith _ "id,"); [exact H|].
  destruct (currentSection st).
  - exact H.
  - destruct (8 <=? _)%nat; [|exact H].
    destruct (idOr (cleanPartsOf line) st) as [id drawn]. cbn [accounts].
    apply Forall_app. split; [exact H|]. constructor; [|constructor].
    apply parseAccount_ok.
  - destruct (9 <=? _)%nat; [|exact H].
    now destruct (idOr (cleanPartsOf line) st) as [id drawn].
Qed.

Lemma parseLine_transactions_ok (st : ParseState) (line : string) :
  Forall (fun t => t.(Transaction.type) <> "") st.(transactions) ->
  Forall (fun t => t.(Transaction.type) <> "") (parseLine st line).(transactions).
Proof.
  intros H. unfold parseLine.
  destruct (Str.includes _ "---ACCOUNTS---"); [exact H|].
  destruct (Str.includes _ "---TRANSACTIONS---"); [exact H|].
  destruct (Str.startsWith _ "id,"); [exact H|].
  destruct (currentSection st).
  - exact H.
  - destruct (8 <=? _)%nat; [|exact H].
    now destruct (idOr (cleanPartsOf line) st) as [id drawn].
  - destruct (9 <=? _)%nat; [|exact H].
    destruct (idOr (cleanPartsOf line) st) as [id drawn]. cbn [transactions].
    apply Forall_app. split; [exact H|]. constructor; [|constructor].
    cbn. apply partOr_nonempty. discriminate.
Qed.

Lemma fold_parseLine_ok (lines : list string) :
  forall st,
    Forall importedAccountOk st.(accounts) ->
    Forall (fun t => t.(Transaction.type) <> "") st.(transactions) ->
    Forall importedAccountOk (fold_left parseLine lines st).(accounts)
    /\ Forall (fun t => t.(Transaction.type) <> "")
              (fold_left parseLine lines st).(transactions).
Proof.
  induction lines as [|line lines IH]; intros st HA HT; simpl; [now split|].
  apply IH; [now apply parseLine_accounts_ok | now apply parseLine_transactions_ok].
Qed.
End ParsedRecords.

(** Whatever the document, every account [parseImportCSV] returns has a
    currency of the enumeration (TRY or USD) and a bank name, an investment
    type and a risk level that are not empty, and every transaction it
    returns has a type that is not empty. *)
Theorem parseImportCSV_records_wellformed :
  forall (N : JSNumber) (R : JSRuntime) (content : string),
    (forall a, In a (fst (parseImportCSV content)) ->
       In a.(Account.currency) Currency.values
       /\ a.(Account.bankName) <> "" /\ a.(Account.investmentType) <> ""
       /\ a.(Account.riskLevel) <> "")
    /\ (forall t, In t (snd (parseImportCSV content)) -> t.(Transaction.type) <> "").
Proof.
  intros N R content. unfold parseImportCSV. cbn [fst snd].
  destruct (@fold_parseLine_ok N R (linesOf content)
              {| currentSection := NONE; accounts := []; transactions := [];
                 idsDrawn := 0 |}) as [HA HT]; try constructor.
  - intros a Ha. rewrite Forall_forall in HA. exact (HA a Ha).
  - intros t Ht. rewrite Forall_forall in HT. exact (HT t Ht).
Qed.

Lemma parseImportCSV_records_wellformed_sample :
  let a := hd (@Account.Build Exact "" "" "" "" "" (Q2Qc 0) "" (Q2Qc 0) (Q2Qc 0))
              (fst (parseImportCSV (R := SampleRuntime) CsvSample.document)) in
  In a.(Account.currency) Currency.values
  /\ a.(Account.bankName) <> "" /\ a.(Account.investmentType) <> ""
  /\ a.(Account.riskLevel) <> "".
Proof.
  intros a.
  apply (proj1 (@parseImportCSV_records_wellformed Exact SampleRuntime
                  CsvSample.document) a).
  vm_compute. left. reflexivity.
Defined.

(** ** Export and import *)

Unset Implicit Arguments.

Section StringFacts.

Lemma append_assoc (a b c : string) : ((a ++ b) ++ c = a ++ (b ++ c))%string.
Proof. induction a as [|x a IH]; simpl; [reflexivity | now rewrite IH]. Qed.

Lemma append_nil_r (a : string) : (a ++ "" = a)%string.
Proof. induction a as [|x a IH]; simpl; [reflexivity | now rewrite IH]. Qed.

Lemma list_of_append (a b : string) :
  list_ascii_of_string (a ++ b)
  = list_ascii_of_string a ++ list_ascii_of_string b.
Proof. induction a as [|x a IH]; simpl; [reflexivity | now rewrite IH]. Qed.

Lemma string_of_app (l l' : list ascii) :
  string_of_list_ascii (l ++ l')
  = (string_of_list_ascii l ++ string_of_list_ascii l')%string.
Proof. induction l as [|x l IH]; simpl; [reflexivity | now rewrite IH]. Qed.

Lemma rev_append (a b : string) : Str.rev (a ++ b) = (Str.rev b ++ Str.rev a)%string.
Proof. unfold Str.rev. now rewrite list_of_append, rev_app_distr, string_of_app. Qed.

Lemma rev_rev (a : string) : Str.rev (Str.rev a) = a.
Proof.
  unfold Str.rev.
  now rewrite list_ascii_of_string_of_list_ascii, rev_involutive,
    string_of_list_ascii_of_string.
Qed.

Lemma noChar_append (cs : list ascii) (a b : string) :
  noChar cs (a ++ b) = noChar cs a && noChar cs b.
Proof.
  induction a as [|x a IH]; simpl; [reflexivity|].
  now rewrite IH, andb_assoc.
Qed.

Lemma noChar_rev (cs : list ascii) (a : string) : noChar cs (Str.rev a) = noChar cs a.
Proof.
  induction a as [|x a IH]; [reflexivity|].
  change (String x a) with (String x "" ++ a)%string at 1.
  rewrite rev_append, noChar_append, IH. simpl.
  now rewrite andb_true_r, andb_comm.
Qed.

Lemma noChar_fewer (cs cs' : list ascii) (a : string) :
  (forall c, In c cs' -> In c cs) -> noChar cs a = true -> noChar cs' a = true.
Proof.
  intros Hincl. induction a as [|x a IH]; simpl; [reflexivity|].
  rewrite !andb_true_iff, !negb_true_iff. intros [Hx Ha]. split; [|now apply IH].
  destruct (existsb (Ascii.eqb x) cs') eqn:E; [|reflexivity].
  apply existsb_exists in E. destruct E as [c [Hc E]].
  rewrite <- Hx. symmetry. apply existsb_exists. exists c. split; auto.
Qed.

Lemma startsOk_append (a b : string) : startsOk a = true -> startsOk (a ++ b) = true.
Proof. destruct a; [discriminate | trivial]. Qed.

Lemma endsOk_append (a b : string) :
  startsOk (Str.rev b) = true -> startsOk (Str.rev (a ++ b)) = true.
Proof. intros H. rewrite rev_append. now apply startsOk_append. Qed.

Lemma trimStart_id (a : string) : startsOk a = true -> Str.trimStart a = a.
Proof.
  destruct a as [|c a]; [discriminate|]. simpl. intros H.
  apply negb_true_iff in H. now rewrite H.
Qed.

Lemma trim_id (a : string) :
  startsOk a = true -> startsOk (Str.rev a) = true -> Str.trim a = a.
Proof.
  intros H1 H2. unfold Str.trim.
  now rewrite (trimStart_id _ H1), (trimStart_id _ H2), rev_rev.
Qed.

Lemma replaceCRLF_id (a : string) : noChar [Str.CR] a = true -> Str.replaceCRLF a = a.
Proof.
  induction a as [|c a IH]; [reflexivity|].
  intros H. cbn [noChar existsb] in H.
  apply andb_true_iff in H. destruct H as [Hc Ha]. specialize (IH Ha).
  rewrite orb_false_r in Hc. apply negb_true_iff in Hc.
  cbn [Str.replaceCRLF]. destruct a as [|c' a']; [reflexivity|].
  rewrite Hc. cbn [andb]. now rewrite IH.
Qed.

Lemma split_nonempty (sep : ascii) (a : string) : Str.split sep a <> [].
Proof.
  induction a as [|c a IH]; simpl; [discriminate|].
  destruct (Ascii.eqb c sep); [discriminate|].
  destruct (Str.split sep a); [contradiction | discriminate].
Qed.

(** A line free of line feeds, followed by a line feed, is the first piece. *)
Lemma split_line (a rest : string) :
  noChar [Str.LF] a = true ->
  Str.split Str.LF (a ++ String Str.LF rest) = a :: Str.split Str.LF rest.
Proof.
  induction a as [|c a IH]; intros H.
  - cbn [append Str.split]. now rewrite Ascii.eqb_refl.
  - cbn [noChar existsb] in H. apply andb_true_iff in H. destruct H as [Hc Ha].
    rewrite orb_false_r in Hc. apply negb_true_iff in Hc.
    cbn [append Str.split]. rewrite Hc, (IH Ha). reflexivity.
Qed.
End StringFacts.

Section FieldFacts.

Lemma count_quotes_append (a b : string) :
  Str.count_quotes (a ++ b) = (Str.count_quotes a + Str.count_quotes b)%nat.
Proof. induction a as [|c a IH]; simpl; [reflexivity | rewrite IH; lia]. Qed.

Lemma noChar_no_quotes (cs : list ascii) (a : string) :
  In Str.quote cs -> noChar cs a = true -> Str.count_quotes a = 0%nat.
Proof.
  intros Hq. induction a as [|c a IH]; simpl; [reflexivity|].
  rewrite andb_true_iff, negb_true_iff. intros [Hc Ha]. rewrite (IH Ha).
  destruct (Ascii.eqb c Str.quote) eqn:E; [|reflexivity].
  exfalso. rewrite <- not_true_iff_false in Hc. apply Hc.
  apply existsb_exists. exists Str.quote. split; assumption.
Qed.

Lemma noChar_not (cs : list ascii) (x c : ascii) (a : string) :
  In x cs -> noChar cs (String c a) = true -> Ascii.eqb c x = false.
Proof.
  intros Hx. simpl. rewrite andb_true_iff, negb_true_iff. intros [Hc _].
  destruct (Ascii.eqb c x) eqn:E; [|reflexivity].
  rewrite <- Hc. symmetry. apply existsb_exists. exists x. split; assumption.
Qed.

Lemma noChar_tail (cs : list ascii) (c : ascii) (a : string) :
  noChar cs (String c a) = true -> noChar cs a = true.
Proof. simpl. rewrite andb_true_iff. tauto. Qed.

(** A bare field before a comma that is outside quotes. *)
Lemma splitFields_bare (f rest : string) :
  noChar [Str.comma] f = true ->
  Nat.even (Str.count_quotes rest) = true ->
  Str.splitFields (f ++ String Str.comma rest) = f :: Str.splitFields rest.
Proof.
  intros Hf Hrest. induction f as [|c f IH].
  - cbn [append Str.splitFields]. rewrite Ascii.eqb_refl, Hrest. reflexivity.
  - cbn [append Str.splitFields].
    rewrite (noChar_not [Str.comma] Str.comma c f (or_introl eq_refl) Hf). cbn [andb].
    rewrite (IH (noChar_tail _ _ _ Hf)). reflexivity.
Qed.

(** The text of a quoted field, its closing quote and the comma after it:
    a comma in the text has an odd number of quotes behind it. *)
Lemma splitFields_in_quotes (q rest : string) :
  noChar [Str.quote] q = true ->
  Nat.even (Str.count_quotes rest) = true ->
  Str.splitFields (q ++ String Str.quote (String Str.comma rest))
  = (q ++ String Str.quote "")%string :: Str.splitFields rest.
Proof.
  intros Hq Hrest. induction q as [|c q IH].
  - cbn [append Str.splitFields]. rewrite Ascii.eqb_refl, Hrest.
    reflexivity.
  - cbn [append Str.splitFields].
    rewrite (IH (noChar_tail _ _ _ Hq)).
    rewrite count_quotes_append.
    rewrite (noChar_no_quotes [Str.quote] q (or_introl eq_refl)
               (noChar_tail _ _ _ Hq)).
    cbn [Str.count_quotes Nat.add]. rewrite Ascii.eqb_refl.
    change (Ascii.eqb Str.comma Str.quote) with false. cbn [Nat.add].
    rewrite Nat.even_succ, <- Nat.negb_even, Hrest. cbn [negb].
    rewrite andb_false_r. reflexivity.
Qed.

Lemma splitFields_quoted (q rest : string) :
  noChar [Str.quote] q = true ->
  Nat.even (Str.count_quotes rest) = true ->
  Str.splitFields (String Str.quote (q ++ String Str.quote (String Str.comma rest)))
  = String Str.quote (q ++ String Str.quote "") :: Str.splitFields rest.
Proof.
  intros Hq Hrest. cbn [Str.splitFields].
  change (Ascii.eqb Str.quote Str.comma) with false. cbn [andb].
  now rewrite splitFields_in_quotes.
Qed.

Lemma splitFields_last (f : string) :
  noChar [Str.comma] f = true -> Str.splitFields f = [f].
Proof.
  induction f as [|c f IH]; intros Hf; [reflexivity|].
  cbn [Str.splitFields]. rewrite (noChar_not [Str.comma] Str.comma c f (or_introl eq_refl) Hf).
  cbn [andb]. now rewrite (IH (noChar_tail _ _ _ Hf)).
Qed.

Lemma dropLeadingQuote_id (f : string) :
  noChar [Str.quote] f = true -> Str.dropLeadingQuote f = f.
Proof.
  destruct f as [|c f]; [reflexivity|]. intros Hf. cbn [Str.dropLeadingQuote].
  now rewrite (noChar_not [Str.quote] Str.quote c f (or_introl eq_refl) Hf).
Qed.

Lemma stripQuotes_bare (f : string) :
  noChar [Str.quote] f = true -> Str.stripQuotes f = f.
Proof.
  intros Hf. unfold Str.stripQuotes.
  rewrite (dropLeadingQuote_id _ Hf), dropLeadingQuote_id, rev_rev;
    [reflexivity | now rewrite noChar_rev].
Qed.

Lemma stripQuotes_quoted (q : string) :
  Str.stripQuotes (String Str.quote (q ++ String Str.quote "")) = q.
Proof.
  unfold Str.stripQuotes. cbn [Str.dropLeadingQuote].
  rewrite Ascii.eqb_refl, rev_append.
  change (Str.rev (String Str.quote "")) with (String Str.quote "").
  cbn [append Str.dropLeadingQuote]. rewrite Ascii.eqb_refl. apply rev_rev.
Qed.

Lemma plain_parts (f : string) :
  plain f = true ->
  startsOk f = true /\ startsOk (Str.rev f) = true
  /\ noChar [Str.LF; Str.CR; Str.comma; Str.quote] f = true.
Proof. unfold plain. rewrite !andb_true_iff. tauto. Qed.

Lemma plain_no (x : ascii) (f : string) :
  In x [Str.LF; Str.CR; Str.comma; Str.quote] -> plain f = true ->
  noChar [x] f = true.
Proof.
  intros Hx Hf. apply plain_parts in Hf. destruct Hf as [_ [_ Hf]].
  eapply noChar_fewer; [|exact Hf]. intros c [<- | []]. exact Hx.
Qed.

Lemma quotable_no (x : ascii) (f : string) :
  In x [Str.LF; Str.CR; Str.quote] -> quotable f = true -> noChar [x] f = true.
Proof.
  intros Hx Hf. unfold quotable in Hf. apply andb_true_iff in Hf.
  destruct Hf as [_ Hf].
  eapply noChar_fewer; [|exact Hf]. intros c [<- | []]. exact Hx.
Qed.

(** What a bare field and a quoted field become among the clean parts. *)
Lemma clean_bare (f : string) :
  plain f = true -> Str.stripQuotes (Str.trim f) = f.
Proof.
  intros Hf. destruct (plain_parts _ Hf) as [H1 [H2 _]].
  rewrite (trim_id _ H1 H2). apply stripQuotes_bare.
  apply (plain_no Str.quote); [cbn; tauto | exact Hf].
Qed.

Lemma clean_quoted (q : string) :
  Str.stripQuotes (Str.trim (String Str.quote (q ++ String Str.quote ""))) = q.
Proof.
  rewrite trim_id; [apply stripQuotes_quoted | reflexivity |].
  change (String Str.quote (q ++ String Str.quote ""))
    with (String Str.quote q ++ String Str.quote "")%string.
  now rewrite rev_append.
Qed.
End FieldFacts.

Section RowFacts.

Lemma accountRow_fields {N : JSNumber} {S : JSToString} (acc : Account.t) :
  accountRow acc = joinFields (accountFields acc).
Proof. reflexivity. Qed.

Lemma transactionRow_fields {N : JSNumber} {S : JSToString} (tx : Transaction.t) :
  transactionRow tx = joinFields (transactionFields tx).
Proof. reflexivity. Qed.

Lemma fieldOk_no_quote (qd : bool) (f : string) :
  fieldOk (qd, f) -> noChar [Str.quote] f = true.
Proof.
  unfold fieldOk. cbn [fst snd]. destruct qd; intros H.
  - apply (quotable_no Str.quote); [cbn; tauto | exact H].
  - apply (plain_no Str.quote); [cbn; tauto | exact H].
Qed.

Lemma fieldOk_no_break (x : ascii) (qd : bool) (f : string) :
  In x [Str.LF; Str.CR] -> fieldOk (qd, f) -> noChar [x] f = true.
Proof.
  intros Hx. unfold fieldOk. cbn [fst snd]. destruct qd; intros H.
  - apply (quotable_no x); [cbn in *; tauto | exact H].
  - apply (plain_no x); [cbn in *; tauto | exact H].
Qed.

(** The split of a row gives its fields as written, and the row has an even
    number of quotes. *)
Lemma splitFields_join (fields : list (bool * string)) :
  Forall fieldOk fields -> endsBare fields ->
  Str.splitFields (joinFields fields) = map renderField fields
  /\ Nat.even (Str.count_quotes (joinFields fields)) = true.
Proof.
  induction fields as [|[qd f] rest IH]; intros Hok Hend; [contradiction|].
  inversion Hok as [|x l Hf Hrest]; subst.
  pose proof (fieldOk_no_quote _ _ Hf) as Hq.
  pose proof (noChar_no_quotes [Str.quote] f (or_introl eq_refl) Hq) as Hcount.
  destruct rest as [|field' rest'].
  - cbn in Hend. subst qd. cbn [joinFields renderField fst snd map].
    rewrite Hcount. split; [|reflexivity].
    apply splitFields_last. apply (plain_no Str.comma); [cbn; tauto | exact Hf].
  - destruct (IH Hrest Hend) as [IHsplit IHeven].
    change (joinFields ((qd, f) :: field' :: rest'))
      with (if qd
            then String Str.quote
                   (f ++ String Str.quote
                           (String Str.comma (joinFields (field' :: rest'))))
            else (f ++ String Str.comma (joinFields (field' :: rest')))%string).
    destruct qd.
    + split.
      * rewrite splitFields_quoted by assumption. now rewrite IHsplit.
      * cbn [Str.count_quotes]. rewrite Ascii.eqb_refl, count_quotes_append, Hcount.
        cbn [Str.count_quotes Nat.add]. rewrite Ascii.eqb_refl.
        change (Ascii.eqb Str.comma Str.quote) with false. cbn [Nat.add].
        exact IHeven.
    + split.
      * rewrite splitFields_bare; [now rewrite IHsplit | | exact IHeven].
        apply (plain_no Str.comma); [cbn; tauto | exact Hf].
      * rewrite count_quotes_append, Hcount. cbn [Str.count_quotes Nat.add].
        change (Ascii.eqb Str.comma Str.quote) with false. exact IHeven.
Qed.

Lemma clean_rendered (field : bool * string) :
  fieldOk field -> Str.stripQuotes (Str.trim (renderField field)) = snd field.
Proof.
  destruct field as [qd f]. unfold fieldOk, renderField. cbn [fst snd].
  destruct qd; intros H; [apply clean_quoted | now apply clean_bare].
Qed.

(** The clean parts of a row are its fields. *)
Lemma cleanParts_join {N : JSNumber} {R : JSRuntime} (fields : list (bool * string)) :
  Forall fieldOk fields -> endsBare fields ->
  cleanPartsOf (joinFields fields) = map snd fields.
Proof.
  intros Hok Hend. unfold cleanPartsOf.
  destruct (splitFields_join fields Hok Hend) as [-> _].
  rewrite map_map. clear Hend. induction Hok as [|field rest Hf _ IH]; simpl.
  - reflexivity.
  - now rewrite (clean_rendered _ Hf), IH.
Qed.

Lemma noChar_join (x : ascii) (fields : list (bool * string)) :
  In x [Str.LF; Str.CR] -> Forall fieldOk fields ->
  noChar [x] (joinFields fields) = true.
Proof.
  intros Hx Hok.
  assert (Hq : Ascii.eqb Str.quote x = false)
    by (destruct Hx as [<- | [<- | []]]; reflexivity).
  assert (Hc : Ascii.eqb Str.comma x = false)
    by (destruct Hx as [<- | [<- | []]]; reflexivity).
  induction Hok as [|[qd f] rest Hf Hrest IH]; [reflexivity|].
  pose proof (fieldOk_no_break x _ _ Hx Hf) as Hb.
  destruct rest as [|field' rest'].
  - destruct qd; cbn [joinFields renderField fst snd]; [|exact Hb].
    cbn [noChar existsb]. rewrite noChar_append, Hb, Hq. cbn [noChar existsb].
    now rewrite Hq.
  - change (joinFields ((qd, f) :: field' :: rest'))
      with (if qd
            then String Str.quote
                   (f ++ String Str.quote
                           (String Str.comma (joinFields (field' :: rest'))))
            else (f ++ String Str.comma (joinFields (field' :: rest')))%string).
    destruct qd.
    + cbn [noChar existsb]. rewrite noChar_append, Hb, Hq. cbn [noChar existsb].
      now rewrite Hq, Hc, IH.
    + rewrite noChar_append, Hb. cbn [noChar existsb]. now rewrite Hc, IH.
Qed.

Lemma startsOk_join (f : string) (rest : list (bool * string)) :
  plain f = true -> startsOk (joinFields ((false, f) :: rest)) = true.
Proof.
  intros Hf. destruct (plain_parts _ Hf) as [H1 _].
  destruct rest; [exact H1|]. now apply startsOk_append.
Qed.

Lemma endsOk_join (fields : list (bool * string)) :
  Forall fieldOk fields -> endsBare fields ->
  startsOk (Str.rev (joinFields fields)) = true.
Proof.
  induction fields as [|[qd f] rest IH]; intros Hok Hend; [contradiction|].
  inversion Hok as [|x l Hf Hrest]; subst.
  destruct rest as [|field' rest'].
  - cbn in Hend. subst qd. now destruct (plain_parts _ Hf) as [_ [H2 _]].
  - specialize (IH Hrest Hend).
    change (joinFields ((qd, f) :: field' :: rest'))
      with (if qd
            then (String Str.quote f
                  ++ (String Str.quote (String Str.comma "")
                      ++ joinFields (field' :: rest')))%string
            else (f ++ (String Str.comma "" ++ joinFields (field' :: rest')))%string).
    destruct qd; now repeat apply endsOk_append.
Qed.
End RowFacts.

Section RoundTrip.
Context {N : JSNumber} {R : JSRuntime} {S : JSToString}.

Lemma plain_truthy (f : string) : plain f = true -> str_truthy f = true.
Proof.
  intros Hf. destruct (plain_parts _ Hf) as [H _]. now destruct f.
Qed.

Lemma quotable_truthy (f : string) : quotable f = true -> str_truthy f = true.
Proof. unfold quotable. rewrite andb_true_iff. tauto. Qed.

Lemma accountFields_ok (a : Account.t) :
  writableAccount a -> Forall fieldOk (accountFields a).
Proof.
  intros (Hid & Hbank & Hcur & Htype & Hdate & [[Hmp _] _] & Hrisk
          & [[Hcb _] _] & [Hic _] & _).
  repeat constructor; try assumption.
  unfold fieldOk. cbn [fst snd].
  destruct Hcur as [<- | [<- | []]]; reflexivity.
Qed.

Lemma transactionFields_ok (t : Transaction.t) :
  exportableTransaction t -> Forall fieldOk (transactionFields t).
Proof.
  intros (Hid & Hacc & Hdate & [[H1 _] _] & [[H2 _] _] & [[H3 _] _]
          & [[H4 _] _] & [[H5 _] _] & [[H6 _] _] & Htype & _).
  repeat constructor; assumption.
Qed.

Lemma readAsData_parts (line : string) :
  readAsData line = true ->
  Str.includes (Str.toUpperCase line) "---ACCOUNTS---" = false
  /\ Str.includes (Str.toUpperCase line) "---TRANSACTIONS---" = false
  /\ Str.startsWith (Str.toLowerCase line) "id," = false.
Proof. unfold readAsData. rewrite !andb_true_iff, !negb_true_iff. tauto. Qed.

(** An exported account row, read in the accounts section, adds the account
    as it is restored. *)
Lemma parseLine_accountRow (st : ParseState) (a : Account.t) :
  st.(currentSection) = ACCOUNTS -> writableAccount a ->
  parseLine st (accountRow a)
  = {| currentSection := ACCOUNTS;
       accounts := st.(accounts) ++ [restoredAccount a];
       transactions := st.(transactions); idsDrawn := st.(idsDrawn) |}.
Proof.
  intros Hsec Hexp. pose proof (accountFields_ok a Hexp) as Hfields.
  destruct Hexp as (Hid & Hbank & Hcur & Htype & Hdate & [[_ Hmp] Hmp0] & Hrisk
                    & [[_ Hcb] Hcb0] & [_ Hic] & Hdata).
  destruct (readAsData_parts _ Hdata) as (H1 & H2 & H3).
  unfold parseLine. rewrite H1, H2, H3, Hsec.
  rewrite accountRow_fields, (cleanParts_join _ Hfields eq_refl).
  cbn [accountFields map snd List.length Nat.leb idOr nth_error].
  rewrite (plain_truthy _ Hid). f_equal. f_equal. f_equal.
  unfold parseAccount, partOr, numberOr. cbn [nth nth_error].
  rewrite (quotable_truthy _ Hbank), (quotable_truthy _ Htype),
    (plain_truthy _ Hdate), (plain_truthy _ Hrisk).
  rewrite Hmp, Hcb, Hic, Hmp0, Hcb0.
  assert (Hin : existsb (String.eqb a.(Account.currency)) Currency.values = true).
  { apply existsb_exists. exists a.(Account.currency).
    split; [exact Hcur | apply String.eqb_refl]. }
  rewrite Hin. reflexivity.
Qed.

(** An exported transaction row, read in the transactions section, adds the
    transaction. *)
Lemma parseLine_transactionRow (st : ParseState) (t : Transaction.t) :
  st.(currentSection) = TRANSACTIONS -> exportableTransaction t ->
  parseLine st (transactionRow t)
  = {| currentSection := TRANSACTIONS; accounts := st.(accounts);
       transactions := st.(transactions) ++ [t]; idsDrawn := st.(idsDrawn) |}.
Proof.
  intros Hsec Hexp. pose proof (transactionFields_ok t Hexp) as Hfields.
  destruct Hexp as (Hid & Hacc & Hdate & [[_ H1] H1'] & [[_ H2] H2']
                    & [[_ H3] H3'] & [[_ H4] H4'] & [[_ H5] H5'] & [[_ H6] H6']
                    & Htype & Hdata).
  destruct (readAsData_parts _ Hdata) as (G1 & G2 & G3).
  unfold parseLine. rewrite G1, G2, G3, Hsec.
  rewrite transactionRow_fields, (cleanParts_join _ Hfields eq_refl).
  cbn [transactionFields map snd List.length Nat.leb idOr nth_error].
  rewrite (plain_truthy _ Hid). f_equal. f_equal. f_equal.
  unfold parseTransaction, partOr, numberOr. cbn [nth nth_error].
  rewrite (plain_truthy _ Hdate), (plain_truthy _ Htype).
  rewrite H1, H2, H3, H4, H5, H6, H1', H2', H3', H4', H5', H6'.
  now destruct t.
Qed.

Lemma fold_accountRows (accs : list Account.t) :
  forall st, st.(currentSection) = ACCOUNTS ->
    Forall writableAccount accs ->
    fold_left parseLine (map accountRow accs) st
    = {| currentSection := ACCOUNTS;
         accounts := st.(accounts) ++ map restoredAccount accs;
         transactions := st.(transactions); idsDrawn := st.(idsDrawn) |}.
Proof.
  induction accs as [|a accs IH]; intros st Hsec Hall.
  - cbn. rewrite app_nil_r, <- Hsec. now destruct st.
  - inversion Hall as [|x l Ha Hrest]; subst. cbn [map fold_left].
    rewrite (parseLine_accountRow _ _ Hsec Ha), IH by (try reflexivity; assumption).
    cbn [accounts transactions idsDrawn]. now rewrite <- app_assoc.
Qed.

Lemma fold_transactionRows (txs : list Transaction.t) :
  forall st, st.(currentSection) = TRANSACTIONS ->
    Forall exportableTransaction txs ->
    fold_left parseLine (map transactionRow txs) st
    = {| currentSection := TRANSACTIONS; accounts := st.(accounts);
         transactions := st.(transactions) ++ txs; idsDrawn := st.(idsDrawn) |}.
Proof.
  induction txs as [|t txs IH]; intros st Hsec Hall.
  - cbn. rewrite app_nil_r, <- Hsec. now destruct st.
  - inversion Hall as [|x l Ht Hrest]; subst. cbn [map fold_left].
    rewrite (parseLine_transactionRow _ _ Hsec Ht), IH
      by (try reflexivity; assumption).
    cbn [accounts transactions idsDrawn]. now rewrite <- app_assoc.
Qed.
End RoundTrip.

Section Document.
Context {N : JSNumber} {R : JSRuntime} {S : JSToString}.

Lemma concatLines_app (l l' : list string) :
  concatLines (l ++ l') = (concatLines l ++ concatLines l')%string.
Proof.
  induction l as [|x l IH]; [reflexivity|].
  cbn [app concatLines fold_right]. fold (concatLines (l ++ l')). fold (concatLines l).
  now rewrite IH, !append_assoc.
Qed.

Lemma appendRows_concat {A : Type} (row : A -> string) (records : list A) :
  forall content,
    appendRows row records content = (content ++ concatLines (map row records))%string.
Proof.
  unfold appendRows. induction records as [|r records IH]; intros content.
  - cbn. now rewrite append_nil_r.
  - cbn [fold_left map]. rewrite IH.
    change (concatLines (row r :: map row records))
      with (row r ++ newline ++ concatLines (map row records))%string.
    now rewrite !append_assoc.
Qed.

(** The text of the export, line by line. *)
Lemma csvContent_lines (accs : list Account.t) (txs : list Transaction.t) :
  csvContent accs txs
  = concatLines (["---ACCOUNTS---"; accountsHeader] ++ map accountRow accs
                 ++ [""; "---TRANSACTIONS---"; transactionsHeader]
                 ++ map transactionRow txs).
Proof.
  unfold csvContent. rewrite !appendRows_concat, !concatLines_app.
  rewrite !append_assoc. reflexivity.
Qed.

Lemma noChar_concatLines (lines : list string) :
  Forall wholeLine lines -> noChar [Str.CR] (concatLines lines) = true.
Proof.
  induction 1 as [|line lines [_ [Hcr _]] _ IH]; [reflexivity|].
  change (concatLines (line :: lines))
    with (line ++ String Str.LF (concatLines lines))%string.
  rewrite noChar_append, Hcr. cbn [noChar existsb].
  change (Ascii.eqb Str.LF Str.CR) with false. exact IH.
Qed.

Lemma split_concatLines (lines : list string) :
  Forall wholeLine lines ->
  Str.split Str.LF (concatLines lines) = lines ++ [""].
Proof.
  induction 1 as [|line lines [Hlf _] _ IH]; [reflexivity|].
  change (concatLines (line :: lines))
    with (line ++ String Str.LF (concatLines lines))%string.
  now rewrite (split_line _ _ Hlf), IH.
Qed.

Lemma linesOf_concatLines (lines : list string) :
  Forall wholeLine lines ->
  linesOf (concatLines lines)
  = filter (fun l => (0 <? String.length l)%nat) lines.
Proof.
  intros Hall. unfold linesOf.
  rewrite (replaceCRLF_id _ (noChar_concatLines _ Hall)).
  rewrite (split_concatLines _ Hall), map_app, filter_app. cbn [map filter].
  change (Str.trim "") with "". cbn. rewrite app_nil_r. f_equal.
  induction Hall as [|line lines [_ [_ Htrim]] _ IH]; [reflexivity|].
  cbn [map]. now rewrite Htrim, IH.
Qed.

Lemma row_wholeLine (fields : list (bool * string)) (f : string)
    (rest : list (bool * string)) :
  fields = (false, f) :: rest ->
  Forall fieldOk fields -> endsBare fields ->
  wholeLine (joinFields fields) /\ (0 <? String.length (joinFields fields))%nat = true.
Proof.
  intros -> Hok Hend.
  assert (Hf : plain f = true) by (inversion Hok; assumption).
  pose proof (startsOk_join f rest Hf) as Hstart.
  repeat split.
  - apply noChar_join; [cbn; tauto | exact Hok].
  - apply noChar_join; [cbn; tauto | exact Hok].
  - apply trim_id; [exact Hstart | now apply endsOk_join].
  - now destruct (joinFields ((false, f) :: rest)).
Qed.

Lemma accountRows_whole (accs : list Account.t) :
  Forall writableAccount accs ->
  Forall wholeLine (map accountRow accs)
  /\ filter (fun l => (0 <? String.length l)%nat) (map accountRow accs)
     = map accountRow accs.
Proof.
  induction 1 as [|a accs Ha _ [IH1 IH2]]; [split; [constructor | reflexivity]|].
  destruct (row_wholeLine (accountFields a) _ _ eq_refl
              (accountFields_ok a Ha) eq_refl) as [Hw Hlen].
  rewrite <- accountRow_fields in Hw, Hlen. split.
  - now constructor.
  - cbn [map filter]. now rewrite Hlen, IH2.
Qed.

Lemma transactionRows_whole (txs : list Transaction.t) :
  Forall exportableTransaction txs ->
  Forall wholeLine (map transactionRow txs)
  /\ filter (fun l => (0 <? String.length l)%nat) (map transactionRow txs)
     = map transactionRow txs.
Proof.
  induction 1 as [|t txs Ht _ [IH1 IH2]]; [split; [constructor | reflexivity]|].
  destruct (row_wholeLine (transactionFields t) _ _ eq_refl
              (transactionFields_ok t Ht) eq_refl) as [Hw Hlen].
  rewrite <- transactionRow_fields in Hw, Hlen. split.
  - now constructor.
  - cbn [map filter]. now rewrite Hlen, IH2.
Qed.

Lemma linesOf_csvContent (accs : list Account.t) (txs : list Transaction.t) :
  Forall writableAccount accs -> Forall exportableTransaction txs ->
  linesOf (csvContent accs txs)
  = ["---ACCOUNTS---"; accountsHeader] ++ map accountRow accs
    ++ ["---TRANSACTIONS---"; transactionsHeader] ++ map transactionRow txs.
Proof.
  intros HA HT.
  destruct (accountRows_whole accs HA) as [HAw HAf].
  destruct (transactionRows_whole txs HT) as [HTw HTf].
  rewrite csvContent_lines, linesOf_concatLines.
  - rewrite !filter_app, HAf, HTf. reflexivity.
  - apply Forall_app. split; [repeat constructor|].
    apply Forall_app. split; [exact HAw|].
    apply Forall_app. split; [repeat constructor | exact HTw].
Qed.
Lemma export_import (accs : list Account.t) (txs : list Transaction.t) :
  Forall writableAccount accs -> Forall exportableTransaction txs ->
  parseImportCSV (csvContent accs txs) = (map restoredAccount accs, txs).
Proof.
  intros HA HT. unfold parseImportCSV.
  rewrite (linesOf_csvContent accs txs HA HT).
  cbn [app fold_left].
  rewrite fold_left_app, fold_accountRows by (try reflexivity; exact HA).
  cbn [fold_left].
  rewrite fold_transactionRows by (try reflexivity; exact HT).
  reflexivity.
Qed.

Lemma restoredAccount_exportable (accs : list Account.t) :
  Forall exportableAccount accs ->
  Forall writableAccount accs /\ map restoredAccount accs = accs.
Proof.
  induction 1 as [|a accs [Hw Hcap] _ [IH1 IH2]]; [split; [constructor | reflexivity]|].
  split; [now constructor|]. cbn [map]. rewrite IH2. f_equal.
  unfold restoredAccount. rewrite Hcap. now destruct a.
Qed.
End Document.

(** An export is read back as it was written.  For accounts and transactions
    that are exportable (ids, dates, risk levels and types written bare: not
    empty, without commas, quotes, line breaks or white space at the ends;
    bank names and investment types free of quotes and line breaks; a
    currency of the enumeration; numbers that [Number] reads back from their
    printed form and that are 0 or truthy; an initial capital that is truthy
    or equal to the balance; no row that reads as a marker or a header),
    [parseImportCSV] of the text [exportToCSV] builds returns the same
    accounts and the same transactions, in their order. *)
Theorem export_import_roundtrip :
  forall (N : JSNumber) (R : JSRuntime) (S : JSToString)
         (accs : list Account.t) (txs : list Transaction.t),
    Forall exportableAccount accs -> Forall exportableTransaction txs ->
    parseImportCSV (csvContent accs txs) = (accs, txs).
Proof.
  intros N R S accs txs HA HT.
  destruct (restoredAccount_exportable accs HA) as [Hw Hsame].
  now rewrite (export_import accs txs Hw HT), Hsame.
Qed.

(** What the import makes of an export whose accounts need not have a truthy
    initial capital: the transactions come back as written, and each account
    comes back with [initialCapital || currentBalance] as initial capital.
    So an account whose initial capital is 0 is restored with its balance as
    initial capital. *)
Theorem export_import_capital :
  forall (N : JSNumber) (R : JSRuntime) (S : JSToString)
         (accs : list Account.t) (txs : list Transaction.t),
    Forall writableAccount accs -> Forall exportableTransaction txs ->
    parseImportCSV (csvContent accs txs) = (map restoredAccount accs, txs)
    /\ forall a, In a accs ->
         num_truthy a.(Account.initialCapital) = false ->
         (restoredAccount a).(Account.initialCapital) = a.(Account.currentBalance).
Proof.
  intros N R S accs txs HA HT. split; [exact (export_import accs txs HA HT)|].
  intros a _ Hfalsy. unfold restoredAccount, num_or.
  cbn [Account.initialCapital]. now rewrite Hfalsy.
Qed.

Lemma kuveyt_exportable :
  exportableAccount (R := SampleRuntime) (S := SampleToString) ExactLedger.kuveyt.
Proof.
  repeat split; try reflexivity; try qc_eq. left. reflexivity.
Qed.

Lemma february_exportable :
  exportableTransaction (R := SampleRuntime) (S := SampleToString)
    ExactLedger.february.
Proof. repeat split; try reflexivity; qc_eq. Qed.

Lemma export_import_roundtrip_ledger :
  parseImportCSV (R := SampleRuntime)
    (csvContent (S := SampleToString) [ExactLedger.kuveyt] [ExactLedger.february])
  = ([ExactLedger.kuveyt], [ExactLedger.february]).
Proof.
  apply (export_import_roundtrip Exact SampleRuntime SampleToString
           [ExactLedger.kuveyt] [ExactLedger.february]).
  - constructor; [exact kuveyt_exportable | constructor].
  - constructor; [exact february_exportable | constructor].
Defined.

Section Restore.
Context {N : JSNumber} {R : JSRuntime} {S : JSToString}.

Lemma csvContent_truthy (accs : list Account.t) (txs : list Transaction.t) :
  str_truthy (csvContent accs txs) = true.
Proof. rewrite csvContent_lines. reflexivity. Qed.

Lemma filter_no_fresh {A : Type} (id : A -> string) (stored imported : list A) :
  (forall x, In x imported -> In (id x) (map id stored)) ->
  filter (fun x => str_truthy (id x) && negb (Set_has (map id stored) (id x)))
         imported = [].
Proof.
  intros H. induction imported as [|x imported IH]; [reflexivity|].
  cbn [filter].
  assert (Hx : Set_has (map id stored) (id x) = true)
    by (apply Set_has_In, H; now left).
  rewrite Hx, andb_false_r. apply IH. intros y Hy. apply H. now right.
Qed.

Lemma filter_all_fresh {A : Type} (id : A -> string) (stored imported : list A) :
  (forall x, In x imported -> id x <> "" /\ ~ In (id x) (map id stored)) ->
  filter (fun x => str_truthy (id x) && negb (Set_has (map id stored) (id x)))
         imported = imported.
Proof.
  intros H. apply filter_all, Forall_forall. intros x Hx.
  apply fresh_id_iff. now apply H.
Qed.

Lemma importFile_export (st : App.State) (accs : list Account.t)
    (txs : list Transaction.t) :
  Forall exportableAccount accs -> Forall exportableTransaction txs ->
  importFile st (csvContent accs txs)
  = if ((List.length accs =? 0) && (List.length txs =? 0))%nat then st
    else App.handleImport st accs txs.
Proof.
  intros HA HT. unfold importFile, ImportWizard.onload, ImportWizard.handleConfirm.
  cbn [ImportWizard.previewData ImportWizard.initial].
  rewrite csvContent_truthy. cbn [negb].
  destruct (restoredAccount_exportable accs HA) as [Hw Hsame].
  rewrite (export_import accs txs Hw HT), Hsame. cbn [fst snd].
  now destruct ((List.length accs =? 0) && (List.length txs =? 0))%nat.
Qed.
End Restore.

(** Restoring a backup over the data it was taken from changes nothing: the
    export of a state with exportable records, chosen in the import wizard
    and confirmed, leaves the state as it is (every id is already there). *)
Theorem restore_own_backup :
  forall (N : JSNumber) (R : JSRuntime) (S : JSToString) (st : App.State),
    Forall exportableAccount st.(App.accounts) ->
    Forall exportableTransaction st.(App.transactions) ->
    importFile st (csvContent st.(App.accounts) st.(App.transactions)) = st.
Proof.
  intros N R S st HA HT. rewrite (importFile_export st _ _ HA HT).
  destruct ((List.length _ =? 0) && (List.length _ =? 0))%nat; [reflexivity|].
  unfold App.handleImport.
  destruct (List.length st.(App.accounts) =? 0)%nat; [reflexivity|].
  rewrite (filter_no_fresh Account.id), (filter_no_fresh Transaction.id), !app_nil_r.
  - now destruct st.
  - intros t Ht. now apply in_map.
  - intros a Ha. now apply in_map.
Qed.

Lemma restore_own_backup_ledger :
  let st := {| App.accounts := [ExactLedger.kuveyt];
               App.transactions := [ExactLedger.february];
               App.editingTransaction := None;
               App.txToDelete := None;
               App.isTxModalOpen := false |} in
  importFile (R := SampleRuntime) st
    (csvContent (S := SampleToString) st.(App.accounts) st.(App.transactions))
  = st.
Proof.
  intros st.
  apply (restore_own_backup Exact SampleRuntime SampleToString st).
  - constructor; [exact kuveyt_exportable | constructor].
  - constructor; [exact february_exportable | constructor].
Defined.

(** Restoring a backup into a state that has none of its ids adds every
    record: the accounts of the backup follow the accounts of the state, and
    its transactions the transactions of the state, in the order of the
    backup; the backup has at least one account. *)
Theorem restore_new_backup :
  forall (N : JSNumber) (R : JSRuntime) (S : JSToString) (st : App.State)
         (accs : list Account.t) (txs : list Transaction.t),
    Forall exportableAccount accs -> Forall exportableTransaction txs ->
    accs <> [] ->
    (forall a, In a accs -> ~ In a.(Account.id) (map Account.id st.(App.accounts))) ->
    (forall t, In t txs ->
       ~ In t.(Transaction.id) (map Transaction.id st.(App.transactions))) ->
    let st' := importFile st (csvContent accs txs) in
    st'.(App.accounts) = st.(App.accounts) ++ accs
    /\ st'.(App.transactions) = st.(App.transactions) ++ txs.
Proof.
  intros N R S st accs txs HA HT Hne HfreshA HfreshT st'. subst st'.
  rewrite (importFile_export st _ _ HA HT).
  destruct accs as [|a0 accs]; [contradiction|].
  cbn [List.length Nat.eqb andb]. unfold App.handleImport.
  cbn [List.length Nat.eqb App.accounts App.transactions].
  rewrite (filter_all_fresh Account.id), (filter_all_fresh Transaction.id).
  - split; reflexivity.
  - intros t Ht. split; [|now apply HfreshT].
    rewrite Forall_forall in HT. destruct (HT t Ht) as [Hid _].
    apply str_truthy_iff. now apply plain_truthy.
  - intros a Ha. split; [|now apply HfreshA].
    rewrite Forall_forall in HA. destruct (HA a Ha) as [[Hid _] _].
    apply str_truthy_iff. now apply plain_truthy.
Qed.

Lemma restore_new_backup_ledger :
  let st' := importFile (R := SampleRuntime)
               {| App.accounts := []; App.transactions := [];
                  App.editingTransaction := None; App.txToDelete := None;
                  App.isTxModalOpen := false |}
               (csvContent (S := SampleToString) [ExactLedger.kuveyt]
                  [ExactLedger.february]) in
  st'.(App.accounts) = [ExactLedger.kuveyt]
  /\ st'.(App.transactions) = [ExactLedger.february].
Proof.
  apply (restore_new_backup Exact SampleRuntime SampleToString
           {| App.accounts := []; App.transactions := [];
              App.editingTransaction := None; App.txToDelete := None;
              App.isTxModalOpen := false |}
           [ExactLedger.kuveyt] [ExactLedger.february]).
  - constructor; [exact kuveyt_exportable | constructor].
  - constructor; [exact february_exportable | constructor].
  - discriminate.
  - intros a _ [].
  - intros t _ [].
Defined.

Lemma dormant_writable :
  writableAccount (R := SampleRuntime) (S := SampleToString) dormant.
Proof. repeat split; try reflexivity; try qc_eq. left. reflexivity. Qed.

Lemma export_import_capital_dormant :
  parseImportCSV (R := SampleRuntime) (csvContent (S := SampleToString) [dormant] [])
  = (map (restoredAccount (N := Exact)) [dormant], [])
  /\ forall a, In a [dormant] ->
       @num_truthy Exact a.(Account.initialCapital) = false ->
       (restoredAccount a).(Account.initialCapital) = a.(Account.currentBalance).
Proof.
  apply (export_import_capital Exact SampleRuntime SampleToString [dormant] []).
  - constructor; [exact dormant_writable | constructor].
  - constructor.
Defined.

(** ** The healer reads the inputs of a transaction only *)

Section SameInputs.
Context {N : JSNumber} {D : JSDate}.

Lemma inputsOf_fields (a b : Transaction.t) :
  inputsOf a = inputsOf b ->
  a.(Transaction.id) = b.(Transaction.id)
  /\ a.(Transaction.accountId) = b.(Transaction.accountId)
  /\ a.(Transaction.date) = b.(Transaction.date)
  /\ a.(Transaction.currentBalance) = b.(Transaction.currentBalance)
  /\ a.(Transaction.userDeposit) = b.(Transaction.userDeposit)
  /\ a.(Transaction.withdrawal) = b.(Transaction.withdrawal).
Proof. unfold inputsOf. intros [= ? ? ? ? ? ?]. tauto. Qed.

Lemma healTx_same_inputs (r : num) (a b : Transaction.t) :
  inputsOf a = inputsOf b -> healTx r a = healTx r b.
Proof.
  intros H. destruct (inputsOf_fields a b H) as (H1 & H2 & H3 & H4 & H5 & H6).
  unfold healTx. now rewrite H1, H2, H3, H4, H5, H6.
Qed.

Lemma healChain_same_inputs (l l' : list Transaction.t) :
  Forall2 (fun a b => inputsOf a = inputsOf b) l l' ->
  forall r, healChain r l = healChain r l'.
Proof.
  induction 1 as [|a b l l' Hab _ IH]; intros r; [reflexivity|].
  cbn [healChain]. rewrite (healTx_same_inputs r a b Hab).
  destruct (inputsOf_fields a b Hab) as (_ & _ & _ & -> & _).
  now rewrite IH.
Qed.

Lemma sort_insert_same_inputs (x x' : Transaction.t) (l l' : list Transaction.t) :
  inputsOf x = inputsOf x' ->
  Forall2 (fun a b => inputsOf a = inputsOf b) l l' ->
  Forall2 (fun a b => inputsOf a = inputsOf b)
    (sort_insert compareByDate x l) (sort_insert compareByDate x' l').
Proof.
  intros Hx. induction 1 as [|a b l l' Hab Hl IH]; cbn [sort_insert].
  - now repeat constructor.
  - assert (Hcmp : compareByDate x a = compareByDate x' b).
    { unfold compareByDate, dateDifference.
      destruct (inputsOf_fields x x' Hx) as (_ & _ & -> & _).
      now destruct (inputsOf_fields a b Hab) as (_ & _ & -> & _). }
    rewrite Hcmp. destruct (compareByDate x' b <=? 0)%Z.
    + now repeat constructor.
    + now constructor.
Qed.

Lemma Array_sort_same_inputs (l l' : list Transaction.t) :
  Forall2 (fun a b => inputsOf a = inputsOf b) l l' ->
  Forall2 (fun a b => inputsOf a = inputsOf b)
    (Array_sort compareByDate l) (Array_sort compareByDate l').
Proof.
  induction 1 as [|a b l l' Hab _ IH]; cbn [Array_sort]; [constructor|].
  now apply sort_insert_same_inputs.
Qed.

Lemma filter_sameForHeal (accountId : string) (l l' : list Transaction.t) :
  Forall2 (sameForHeal accountId) l l' ->
  filter (fun t => negb (ofAccount accountId t)) l
  = filter (fun t => negb (ofAccount accountId t)) l'
  /\ Forall2 (fun a b => inputsOf a = inputsOf b)
       (filter (ofAccount accountId) l) (filter (ofAccount accountId) l').
Proof.
  induction 1 as [|a b l l' [Hab Hout] _ [IH1 IH2]]; [split; constructor|].
  assert (Hb : ofAccount accountId b = ofAccount accountId a).
  { unfold ofAccount. now destruct (inputsOf_fields a b Hab) as (_ & -> & _). }
  cbn [filter]. rewrite Hb.
  destruct (ofAccount accountId a) eqn:E; cbn [negb].
  - split; [exact IH1 | now constructor].
  - apply String.eqb_neq in E. rewrite <- (Hout E). split; [now f_equal | exact IH2].
Qed.

Lemma heal_sameForHeal (l l' : list Transaction.t) (accountId : string)
    (accs : list Account.t) (account : Account.t) :
  find (fun a => (a.(Account.id) =? accountId)%string) accs = Some account ->
  Forall2 (sameForHeal accountId) l l' ->
  healTransactionChain l accountId accs = healTransactionChain l' accountId accs.
Proof.
  intros Hfind Hrel. rewrite !(heal_found _ _ _ Hfind). cbv zeta.
  destruct (filter_sameForHeal accountId l l' Hrel) as [Hothers Hchain].
  unfold chainOf.
  rewrite (healChain_same_inputs _ _ (Array_sort_same_inputs _ _ Hchain)).
  now rewrite Hothers.
Qed.

Lemma sameForHeal_refl (accountId : string) (l : list Transaction.t) :
  Forall2 (sameForHeal accountId) l l.
Proof. induction l; constructor; [now split | assumption]. Qed.
End SameInputs.

(** A save never trusts the derived fields of the transaction it is handed
    (the modal fills them from its preview): two transactions with the same
    id, account, date, balance, deposit and withdrawal give the same state,
    when their account exists. *)
Theorem handleSaveTransaction_reads_inputs :
  forall (N : JSNumber) (D : JSDate) (st : App.State) (tx tx' : Transaction.t)
         (account : Account.t),
    find (fun a => (a.(Account.id) =? tx.(Transaction.accountId))%string)
         st.(App.accounts) = Some account ->
    inputsOf tx = inputsOf tx' ->
    App.handleSaveTransaction st tx = App.handleSaveTransaction st tx'.
Proof.
  intros N D st tx tx' account Hfind Hsame.
  destruct (inputsOf_fields tx tx' Hsame) as (Hid & Hacc & _).
  unfold App.handleSaveTransaction. rewrite <- Hacc, <- Hid.
  assert (Hrel :
    Forall2 (sameForHeal tx.(Transaction.accountId))
      match st.(App.editingTransaction) with
      | Some _ =>
          map (fun t => if (t.(Transaction.id) =? tx.(Transaction.id))%string
                        then tx else t) st.(App.transactions)
      | None => st.(App.transactions) ++ [tx]
      end
      match st.(App.editingTransaction) with
      | Some _ =>
          map (fun t => if (t.(Transaction.id) =? tx.(Transaction.id))%string
                        then tx' else t) st.(App.transactions)
      | None => st.(App.transactions) ++ [tx']
      end).
  { assert (Htx : sameForHeal tx.(Transaction.accountId) tx tx')
      by (split; [exact Hsame | intros H; now contradiction H]).
    destruct st.(App.editingTransaction).
    - induction st.(App.transactions) as [|u l IH]; cbn [map]; constructor;
        [|exact IH].
      destruct (u.(Transaction.id) =? tx.(Transaction.id))%string;
        [exact Htx | now split].
    - apply Forall2_app; [apply sameForHeal_refl | now repeat constructor]. }
  now rewrite (heal_sameForHeal _ _ _ _ _ Hfind Hrel).
Qed.

(** The first statement of [Opening], with the derived fields as the modal's
    preview computed them and all zero, gives the same ledger. *)
Lemma handleSaveTransaction_reads_inputs_opening :
  App.handleSaveTransaction (D := IsoDate) Opening.opened Opening.statement
  = App.handleSaveTransaction (D := IsoDate) Opening.opened
      (Transaction.Build (N := Float64) "t-1" "3" "2024-04-01" 0%float 620%float
         100%float 0%float 0%float 0%float TransactionType.BANK_PROFIT).
Proof.
  apply (handleSaveTransaction_reads_inputs Float64 IsoDate Opening.opened
           Opening.statement
           (Transaction.Build (N := Float64) "t-1" "3" "2024-04-01" 0%float
              620%float 100%float 0%float 0%float 0%float
              TransactionType.BANK_PROFIT)
           Opening.vakif).
  - reflexivity.
  - reflexivity.
Defined.

(** ** An entry dated last *)

Section LatestEntry.
Context {N : JSNumber} {D : JSDate}.

Lemma sort_insert_before_last {A : Type} (cmp : A -> A -> Z) (a x : A) (s : list A) :
  (cmp a x <= 0)%Z -> sort_insert cmp a (s ++ [x]) = sort_insert cmp a s ++ [x].
Proof.
  intros H. induction s as [|y s IH]; cbn [app sort_insert].
  - apply Z.leb_le in H. now rewrite H.
  - destruct (cmp a y <=? 0)%Z; [reflexivity | now rewrite IH].
Qed.

Lemma Array_sort_latest {A : Type} (cmp : A -> A -> Z) (l : list A) (x : A) :
  (forall a, In a l -> (cmp a x <= 0)%Z) ->
  Array_sort cmp (l ++ [x]) = Array_sort cmp l ++ [x].
Proof.
  induction l as [|a l IH]; intros H; cbn [app Array_sort]; [reflexivity|].
  rewrite IH by (intros b Hb; apply H; now right).
  apply sort_insert_before_last, H. now left.
Qed.

Lemma last_error_snoc {A : Type} (l : list A) (x : A) :
  last_error (l ++ [x]) = Some x.
Proof.
  induction l as [|a l IH]; [reflexivity|].
  cbn [app last_error]. destruct (l ++ [x]) eqn:E; [|exact IH].
  now destruct l.
Qed.

Lemma healChain_snoc (l : list Transaction.t) (x : Transaction.t) :
  forall r,
    healChain r (l ++ [x])
    = healChain r l
      ++ [healTx match last_error l with
                 | Some t => t.(Transaction.currentBalance)
                 | None => r
                 end x].
Proof.
  induction l as [|t l IH]; intros r; [reflexivity|].
  cbn [app healChain]. rewrite IH. cbn [app]. do 3 f_equal.
  destruct l as [|u l]; [reflexivity|].
  change (last_error (t :: u :: l)) with (last_error (u :: l)).
  destruct (last_error (u :: l)) eqn:E; [reflexivity|].
  apply last_error_None in E. discriminate E.
Qed.

Lemma capital_or_zero (c : num) :
  num_truthy c = true \/ c = num0 -> num_or c num0 = c.
Proof.
  unfold num_or. intros [-> | ->]; [reflexivity|]. now destruct (num_truthy num0).
Qed.

(** The chain of a consistent ledger after an entry that heals to itself on
    the balance of the account, and is dated last, is added at the end. *)
Lemma latest_entry_chain (accs : list Account.t) (txs : list Transaction.t)
    (account : Account.t) (tx : Transaction.t) :
  consistent accs txs ->
  find (fun a => (a.(Account.id) =? account.(Account.id))%string) accs
    = Some account ->
  num_truthy account.(Account.initialCapital) = true
    \/ account.(Account.initialCapital) = num0 ->
  tx.(Transaction.accountId) = account.(Account.id) ->
  latestEntry account.(Account.id) tx.(Transaction.date) txs ->
  healTx account.(Account.currentBalance) tx = tx ->
  chainOf account.(Account.id) (txs ++ [tx])
    = chainOf account.(Account.id) txs ++ [tx]
  /\ healChain (num_or account.(Account.initialCapital) num0)
       (chainOf account.(Account.id) txs ++ [tx])
     = chainOf account.(Account.id) txs ++ [tx].
Proof.
  intros Hcons Hfind Hcap Hacc Hlatest Hself. split.
  - unfold chainOf. rewrite filter_app. cbn [filter]. unfold ofAccount at 2.
    rewrite Hacc, String.eqb_refl. apply Array_sort_latest.
    intros a Ha. apply filter_In in Ha. destruct Ha as [Hin Hof].
    apply String.eqb_eq in Hof. apply notLater_compare.
    exact (Hlatest a Hin Hof).
  - rewrite healChain_snoc. destruct (Hcons _ _ Hfind) as [Hchain Hbal].
    rewrite <- Hchain. do 2 f_equal.
    destruct (find_id_In _ _ Hfind) as [Hin _].
    specialize (Hbal account Hin eq_refl). unfold chainBalance in Hbal.
    rewrite (capital_or_zero _ Hcap), <- Hbal. exact Hself.
Qed.

Lemma filter_others_snoc (accountId : string) (txs : list Transaction.t)
    (tx : Transaction.t) :
  tx.(Transaction.accountId) = accountId ->
  filter (fun t => negb (ofAccount accountId t)) (txs ++ [tx])
  = filter (fun t => negb (ofAccount accountId t)) txs.
Proof.
  intros H. rewrite filter_app. cbn [filter]. unfold ofAccount at 2.
  rewrite H, String.eqb_refl. apply app_nil_r.
Qed.
End LatestEntry.

(** The entry that the modal previews is the entry that is recorded, when it
    is dated last.  In a consistent ledger, for a new entry of an account
    (the one the healer finds under its id, with an initial capital that is
    0 or a number that is not zero) dated no earlier than the transactions of
    the account, [handleSaveTransaction] keeps the transaction as the modal
    built it, previous balance, profit, percentage and type included, at the
    end of the ledger, after the other accounts' transactions and the chain
    of the account; and the account gets the balance of the form. *)
Theorem latest_entry_saved_as_previewed :
  forall (N : JSNumber) (D : JSDate) (st : App.State) (account : Account.t)
         (form : TransactionModal.Form) (generatedId : string),
    st.(App.editingTransaction) = None ->
    find (fun a => (a.(Account.id) =? account.(Account.id))%string)
         st.(App.accounts) = Some account ->
    consistent st.(App.accounts) st.(App.transactions) ->
    num_truthy account.(Account.initialCapital) = true
      \/ account.(Account.initialCapital) = num0 ->
    latestEntry account.(Account.id) form.(TransactionModal.date)
      st.(App.transactions) ->
    let tx := TransactionModal.handleSave account None form generatedId in
    let st' := App.handleSaveTransaction st tx in
    st'.(App.transactions)
    = filter (fun t => negb (ofAccount account.(Account.id) t)) st.(App.transactions)
      ++ chainOf account.(Account.id) st.(App.transactions) ++ [tx]
    /\ forall a, In a st'.(App.accounts) ->
         a.(Account.id) = account.(Account.id) ->
         a.(Account.currentBalance) = form.(TransactionModal.newBalance).
Proof.
  intros N D st account form generatedId Hnew Hfind Hcons Hcap Hlatest tx st'.
  destruct (latest_entry_chain st.(App.accounts) st.(App.transactions) account tx
              Hcons Hfind Hcap eq_refl Hlatest eq_refl) as [Hsort Hheal].
  subst st'. unfold App.handleSaveTransaction. rewrite Hnew.
  cbn [App.accounts App.transactions].
  change tx.(Transaction.accountId) with account.(Account.id).
  rewrite (heal_found _ _ _ Hfind). cbv zeta. cbn [healedTxs updatedAccounts].
  rewrite (filter_others_snoc _ _ _ (eq_refl : tx.(Transaction.accountId) = _)).
  rewrite Hsort, Hheal, last_error_snoc. split; [reflexivity|].
  intros a Ha Hid. apply in_map_iff in Ha. destruct Ha as [a0 [<- _]].
  destruct (a0.(Account.id) =? account.(Account.id))%string eqn:E; [reflexivity|].
  apply String.eqb_neq in E. contradiction.
Qed.

(** A second statement after the first of [Opening]: 700 a month later, on
    a balance of 620. *)
Lemma latest_entry_saved_as_previewed_opening :
  let account := Account.with_currentBalance Opening.vakif 620%float in
  let tx := TransactionModal.handleSave account None
              (@TransactionModal.Build_Form Float64 700%float 0%float 0%float
                 "2024-05-01") "t-2" in
  let st' := App.handleSaveTransaction (D := IsoDate) Opening.recorded tx in
  st'.(App.transactions) = [Opening.statement; tx]
  /\ forall a, In a st'.(App.accounts) -> a.(Account.id) = "3" ->
       a.(Account.currentBalance) = 700%float.
Proof.
  apply (latest_entry_saved_as_previewed Float64 IsoDate Opening.recorded
           (Account.with_currentBalance Opening.vakif 620%float)
           (@TransactionModal.Build_Form Float64 700%float 0%float 0%float
              "2024-05-01")
           "t-2").
  - reflexivity.
  - reflexivity.
  - exact recorded_consistent.
  - left. reflexivity.
  - intros t [<- | []] _. exists 20240401%Z, 20240501%Z. repeat split. lia.
Defined.

(** The handler of src/App.tsx, which sets the balance without healing,
    keeps a consistent ledger consistent when the entry of the modal is dated
    last: no earlier than the transactions of the account, the one found
    under its id, whose initial capital is 0 or a number that is not zero. *)
Theorem handleAddTransaction_latest_consistent :
  forall (N : JSNumber) (D : JSDate) (st : AppTsx.State) (account : Account.t)
         (newBalance userDeposit withdrawal : num) (date randomUUID : string),
    find (fun a => (a.(Account.id) =? account.(Account.id))%string)
         st.(AppTsx.accounts) = Some account ->
    consistent st.(AppTsx.accounts) st.(AppTsx.transactions) ->
    num_truthy account.(Account.initialCapital) = true
      \/ account.(Account.initialCapital) = num0 ->
    latestEntry account.(Account.id) date st.(AppTsx.transactions) ->
    let newTx := AppTsx.handleSave account newBalance userDeposit withdrawal date
                   randomUUID in
    let st' := AppTsx.handleAddTransaction st newTx in
    consistent st'.(AppTsx.accounts) st'.(AppTsx.transactions).
Proof.
  intros N D st account newBalance userDeposit withdrawal date randomUUID
    Hfind Hcons Hcap Hlatest newTx st'.
  destruct (latest_entry_chain st.(AppTsx.accounts) st.(AppTsx.transactions)
              account newTx Hcons Hfind Hcap eq_refl Hlatest eq_refl)
    as [Hsort Hheal].
  subst st'. unfold AppTsx.handleAddTransaction.
  cbn [AppTsx.accounts AppTsx.transactions].
  change newTx.(Transaction.accountId) with account.(Account.id).
  change newTx.(Transaction.currentBalance) with newBalance.
  change (map _ st.(AppTsx.accounts))
    with (map (setBalance account.(Account.id) newBalance) st.(AppTsx.accounts)).
  intros id' account' Hfind'.
  rewrite find_map_keeps in Hfind' by (intros a; now rewrite setBalance_id).
  destruct (find (fun a => (a.(Account.id) =? id')%string) st.(AppTsx.accounts))
    as [account0|] eqn:Hfind0; [|discriminate].
  injection Hfind' as <-.
  assert (Hcap0 : (setBalance account.(Account.id) newBalance account0).(Account.initialCapital)
                  = account0.(Account.initialCapital)).
  { unfold setBalance. now destruct (_ =? _)%string. }
  rewrite Hcap0.
  destruct (String.eqb_spec id' account.(Account.id)) as [-> | Hne].
  - rewrite Hfind in Hfind0. injection Hfind0 as <-.
    rewrite Hsort. split; [now rewrite Hheal|].
    intros a Ha Hid. unfold chainBalance. rewrite Hsort, last_error_snoc.
    apply in_map_iff in Ha. destruct Ha as [a0 [<- _]].
    unfold setBalance in *.
    destruct (a0.(Account.id) =? account.(Account.id))%string eqn:E; [reflexivity|].
    apply String.eqb_neq in E. contradiction.
  - destruct (Hcons id' account0 Hfind0) as [Hchain Hbal].
    assert (Hsame : filter (ofAccount id') (st.(AppTsx.transactions) ++ [newTx])
                    = filter (ofAccount id') st.(AppTsx.transactions))
      by now apply filter_append_other.
    rewrite (chainOf_same_filter _ _ _ Hsame),
            (chainBalance_same_filter _ _ _ _ Hsame).
    split; [exact Hchain|].
    intros a Ha Hid. apply in_map_iff in Ha. destruct Ha as [a0 [<- Hin0]].
    unfold setBalance in *.
    destruct (a0.(Account.id) =? account.(Account.id))%string eqn:E.
    + apply String.eqb_eq in E. cbn in Hid. congruence.
    + now apply Hbal.
Qed.

(** A second statement after the first of [Opening], entered through
    src/App.tsx. *)
Lemma handleAddTransaction_latest_consistent_opening :
  let st' := AppTsx.handleAddTransaction
               {| AppTsx.accounts := Opening.recorded.(App.accounts);
                  AppTsx.transactions := Opening.recorded.(App.transactions);
                  AppTsx.isTxModalOpen := true |}
               (AppTsx.handleSave (Account.with_currentBalance Opening.vakif 620%float)
                  700%float 0%float 0%float "2024-05-01" "t-2") in
  consistent (D := IsoDate) st'.(AppTsx.accounts) st'.(AppTsx.transactions).
Proof.
  apply (handleAddTransaction_latest_consistent Float64 IsoDate
           {| AppTsx.accounts := Opening.recorded.(App.accounts);
              AppTsx.transactions := Opening.recorded.(App.transactions);
              AppTsx.isTxModalOpen := true |}
           (Account.with_currentBalance Opening.vakif 620%float)
           700%float 0%float 0%float "2024-05-01" "t-2").
  - reflexivity.
  - exact recorded_consistent.
  - left. reflexivity.
  - intros t [<- | []] _. exists 20240401%Z, 20240501%Z. repeat split. lia.
Defined.
